(** * Feedback Signal Detector: the severity scoring and risk-ranking pipeline

    A shallow embedding of [analyzeSeverity] and [generateRecommendation] of
    [src/index.ts], with the parts of the JavaScript runtime they rely on:
    IEEE-754 binary64 numbers (Rocq's primitive floats), [Math.round],
    [Math.max], property lookup through [Object.prototype], string splitting
    and searching, [JSON.parse], and the stable [Array.prototype.sort].

    Strings are byte strings: a source string stands for its UTF-8 encoding,
    a surrogate without a partner (which a JavaScript string can hold and
    UTF-8 proper cannot) being written as the three bytes of its code unit.
    Every character the code looks for (braces, the separator, the keywords)
    is ASCII, so searching bytes and searching UTF-16 code units agree; where
    the code counts characters ([substring]) the model counts the UTF-16 code
    units the bytes stand for ([Str.units]). *)

From Stdlib Require Import ZArith List String Ascii Bool Lia Floats.
From Stdlib Require Import Permutation Sorted.
From Stdlib Require Uint63.
Import ListNotations.

Set Warnings "-inexact-float,-register-all".

Local Open Scope string_scope.
Local Open Scope list_scope.

(** ** JavaScript numbers *)

Module Num.

Local Open Scope float_scope.

(** An integer delivered by the record store, as the Number nearest to it. *)
Definition of_Z (z : Z) : float :=
  SF2Prim (binary_normalize prec emax z 0 false).

(** [Math.round]: the integer nearest to [x], a tie going towards +infinity;
    NaN, the infinities and integral values are returned as they are, and a
    result of zero keeps the sign of [x]. *)
Definition Math_round (x : float) : float :=
  match Prim2SF x with
  | S754_finite s m e =>
      if (0 <=? e)%Z then x
      else
        let n := ((cond_Zopp s (Zpos m) * 2 + 2 ^ (- e)) / 2 ^ (- e + 1))%Z in
        if (n =? 0)%Z then (if s then neg_zero else zero) else of_Z n
  | _ => x
  end.

(** [Math.max] of two numbers: NaN when either is NaN, and +0 above -0. *)
Definition Math_max (x y : float) : float :=
  if is_nan x || is_nan y then nan
  else if x <? y then y
  else if y <? x then x
  else if get_sign x then y else x.

(** [x > y] and [x >= y] of the source. *)
Definition gt (x y : float) : bool := y <? x.
Definition ge (x y : float) : bool := y <=? x.

(** Truthiness of a number: false for +0, -0 and NaN. *)
Definition truthy (x : float) : bool := negb (is_zero x || is_nan x).

End Num.

(** ** JavaScript strings *)

Module Str.

Definition lower_ascii (c : ascii) : ascii :=
  let n := nat_of_ascii c in
  if (65 <=? n)%nat && (n <=? 90)%nat then ascii_of_nat (n + 32) else c.

(** [s.toLowerCase()]. Bytes outside A-Z are kept: the only non-ASCII
    characters whose lower case contains an ASCII letter are U+0130 (an [i]
    followed by a combining dot) and U+212A (a [k]), and neither can complete
    one of the keywords searched below. *)
Fixpoint toLowerCase (s : string) : string :=
  match s with
  | EmptyString => EmptyString
  | String c r => String (lower_ascii c) (toLowerCase r)
  end.

Fixpoint startsWith (p s : string) : bool :=
  match p, s with
  | EmptyString, _ => true
  | String a p', String b s' => Ascii.eqb a b && startsWith p' s'
  | String _ _, EmptyString => false
  end.

(** [s.includes(needle)]. *)
Fixpoint includes (needle s : string) : bool :=
  startsWith needle s ||
  match s with
  | EmptyString => false
  | String _ r => includes needle r
  end.

(** The low six bits of a continuation byte. *)
Definition continuation (c : ascii) : N := (N_of_ascii c mod 64)%N.

(** The UTF-16 code units a string holds: one for a sequence of one, two or
    three bytes, two (a surrogate pair) for a sequence of four. A byte that
    starts no sequence, which the encoding of a JavaScript string never has,
    counts as a unit by itself. *)
Fixpoint units (s : string) : list N :=
  match s with
  | EmptyString => []
  | String a r =>
      let b := N_of_ascii a in
      if (b <? 192)%N then b :: units r
      else if (b <? 224)%N then
        match r with
        | String c1 r1 => ((b mod 32) * 64 + continuation c1)%N :: units r1
        | _ => b :: units r
        end
      else if (b <? 240)%N then
        match r with
        | String c1 (String c2 r2) =>
            ((b mod 16) * 4096 + continuation c1 * 64 + continuation c2)%N :: units r2
        | _ => b :: units r
        end
      else
        match r with
        | String c1 (String c2 (String c3 r3)) =>
            let p := ((b mod 8) * 262144 + continuation c1 * 4096
                      + continuation c2 * 64 + continuation c3 - 65536)%N in
            (55296 + p / 1024)%N :: (56320 + p mod 1024)%N :: units r3
        | _ => b :: units r
        end
  end.

(** The bytes of the code point [p], or of the lone surrogate [p], in front
    of [rest]. *)
Definition encode (p : N) (rest : string) : string :=
  let byte (n : N) := ascii_of_N n in
  (if p <? 128 then String (byte p) rest
   else if p <? 2048 then
     String (byte (192 + p / 64)) (String (byte (128 + p mod 64)) rest)
   else if p <? 65536 then
     String (byte (224 + p / 4096))
       (String (byte (128 + (p / 64) mod 64)) (String (byte (128 + p mod 64)) rest))
   else
     String (byte (240 + p / 262144))
       (String (byte (128 + (p / 4096) mod 64))
          (String (byte (128 + (p / 64) mod 64))
             (String (byte (128 + p mod 64)) rest))))%N.

Definition is_high (u : N) : bool := (55296 <=? u)%N && (u <? 56320)%N.
Definition is_low (u : N) : bool := (56320 <=? u)%N && (u <? 57344)%N.

(** The string made of the given code units: a high surrogate directly
    followed by a low one is one code point. *)
Fixpoint of_units (l : list N) : string :=
  match l with
  | [] => EmptyString
  | u :: r =>
      match r with
      | v :: r' =>
          if is_high u && is_low v
          then encode (65536 + (u - 55296) * 1024 + (v - 56320))%N (of_units r')
          else encode u (of_units r)
      | [] => encode u EmptyString
      end
  end.

(** [s.substring(0, n)]: the first [n] code units of [s], all of them when
    there are fewer. The cut can fall inside a surrogate pair, which leaves
    the high surrogate alone. *)
Definition substring0 (n : nat) (s : string) : string := of_units (firstn n (units s)).

(** [s.split(sep)] for a separator that is not empty: the pieces between the
    occurrences of [sep], found from left to right without overlap. [skip]
    counts the bytes of a separator still to drop, [cur] is the piece read so
    far. *)
Fixpoint split_from (sep : string) (skip : nat) (cur : string) (s : string)
  : list string :=
  match skip, s with
  | S k, String _ r => split_from sep k cur r
  | S _, EmptyString => [cur]
  | O, EmptyString => [cur]
  | O, String c r =>
      if startsWith sep s
      then cur :: split_from sep (String.length sep - 1) EmptyString r
      else split_from sep 0 (cur ++ String c EmptyString) r
  end.

Definition split (sep s : string) : list string := split_from sep 0 EmptyString s.

(** Index of the first occurrence of a byte. *)
Fixpoint index_of (c : ascii) (s : string) : option nat :=
  match s with
  | EmptyString => None
  | String a r =>
      if Ascii.eqb a c then Some O else option_map S (index_of c r)
  end.

(** Index of the last occurrence of a byte. *)
Fixpoint last_index_of (c : ascii) (s : string) : option nat :=
  match s with
  | EmptyString => None
  | String a r =>
      match last_index_of c r with
      | Some i => Some (S i)
      | None => if Ascii.eqb a c then Some O else None
      end
  end.

(** [s.match(/\{[\s\S]*\}/)]: the match, when there is one, runs from the
    first opening brace to the last closing brace after it (the star is
    greedy and its class accepts every character). *)
Definition match_braces (s : string) : option string :=
  match index_of "{" s with
  | None => None
  | Some i =>
      let rest := String.substring (S i) (String.length s - S i) s in
      match last_index_of "}" rest with
      | None => None
      | Some j => Some (String.substring i (j + 2) s)
      end
  end.

End Str.

(** ** JavaScript objects used as tables *)

Module Obj.

(** What [o[k]] finds on an object literal [o]: an own property, a member
    inherited from [Object.prototype], or nothing ([undefined]). *)
Inductive lookup (A : Type) : Type :=
| Own (a : A)
| FromPrototype (name : string)
| Missing.
Arguments Own {A} a.
Arguments FromPrototype {A} name.
Arguments Missing {A}.

(** The property names every object literal inherits. Each is a function,
    except [__proto__], an accessor that yields [Object.prototype] itself:
    all are truthy, and all convert to NaN as numbers. *)
Definition Object_prototype : list string :=
  [ "constructor"; "__defineGetter__"; "__defineSetter__"; "hasOwnProperty";
    "__lookupGetter__"; "__lookupSetter__"; "isPrototypeOf";
    "propertyIsEnumerable"; "toString"; "valueOf"; "__proto__";
    "toLocaleString" ].

Fixpoint own {A} (o : list (string * A)) (k : string) : option A :=
  match o with
  | [] => None
  | (k', v) :: o' => if String.eqb k' k then Some v else own o' k
  end.

Definition inherited (k : string) : bool :=
  existsb (String.eqb k) Object_prototype.

Definition get {A} (o : list (string * A)) (k : string) : lookup A :=
  match own o k with
  | Some v => Own v
  | None => if inherited k then FromPrototype k else Missing
  end.

(** [o[k] || d] in a numeric context (the right operand of [*=]). *)
Definition number_or (p : lookup float) (d : float) : float :=
  match p with
  | Own v => if Num.truthy v then v else d
  | FromPrototype _ => nan
  | Missing => d
  end.

End Obj.

(** ** JSON values and [JSON.parse] *)

Module Json.

(** A parsed JSON value. A number is kept as the decimal it was written as,
    [(-1)^neg * digits * 10^exp10], and stands for the Number nearest to that
    decimal: two decimals can stand for one Number, and a decimal out of
    range stands for an infinity. The code only reads the truthiness of a
    parsed number ([truthy] below), which is that of the Number. Members of
    an object are kept in source order, duplicates included. *)
Inductive json : Type :=
| JNull
| JBool (b : bool)
| JNumber (neg : bool) (digits : N) (exp10 : Z)
| JString (s : string)
| JArray (items : list json)
| JObject (members : list (string * json)).

(** The Number a decimal denotes is zero when its digits are zero, or when it
    lies at or below half the least subnormal, [2^-1075] (a tie rounds to the
    even neighbour, zero). *)
Definition number_is_zero (digits : N) (exp10 : Z) : bool :=
  (digits =? 0)%N ||
  ((exp10 <? 0)%Z && (Z.of_N digits * 2 ^ 1075 <=? 10 ^ (- exp10))%Z).

(** Truthiness of a value once parsed. *)
Definition truthy (v : json) : bool :=
  match v with
  | JNull => false
  | JBool b => b
  | JNumber _ d e => negb (number_is_zero d e)
  | JString s => negb (String.eqb s "")
  | JArray _ => true
  | JObject _ => true
  end.

(** [o.k] on a parsed object: of duplicate members the last one wins. *)
Fixpoint member (k : string) (ms : list (string * json)) : option json :=
  match ms with
  | [] => None
  | (k', v) :: r =>
      match member k r with
      | Some w => Some w
      | None => if String.eqb k' k then Some v else None
      end
  end.

Definition is_ws (c : ascii) : bool :=
  match nat_of_ascii c with
  | 32 | 9 | 10 | 13 => true
  | _ => false
  end.

Fixpoint skip_ws (cs : list ascii) : list ascii :=
  match cs with
  | c :: r => if is_ws c then skip_ws r else cs
  | [] => []
  end.

Definition digit (c : ascii) : option N :=
  let n := nat_of_ascii c in
  if (48 <=? n)%nat && (n <=? 57)%nat then Some (N.of_nat (n - 48)) else None.

Definition hex_digit (c : ascii) : option N :=
  let n := nat_of_ascii c in
  if (48 <=? n)%nat && (n <=? 57)%nat then Some (N.of_nat (n - 48))
  else if (65 <=? n)%nat && (n <=? 70)%nat then Some (N.of_nat (n - 55))
  else if (97 <=? n)%nat && (n <=? 102)%nat then Some (N.of_nat (n - 87))
  else None.

(** The longest run of digits at the head of [cs]: its value, its length, and
    what follows. *)
Fixpoint digits_run (acc : N) (len : nat) (cs : list ascii)
  : N * nat * list ascii :=
  match cs with
  | c :: r =>
      match digit c with
      | Some d => digits_run (acc * 10 + d) (S len) r
      | None => (acc, len, cs)
      end
  | [] => (acc, len, [])
  end.

(** The integer part of a number: a lone [0], or a run that starts with 1-9. *)
Definition int_part (cs : list ascii) : option (N * list ascii) :=
  match cs with
  | c :: r =>
      match digit c with
      | Some 0%N => Some (0%N, r)
      | Some d => let '(v, _, r') := digits_run d 1 r in Some (v, r')
      | None => None
      end
  | [] => None
  end.

(** The optional fraction: appends its digits and counts them. *)
Definition frac_part (int : N) (cs : list ascii) : option (N * nat * list ascii) :=
  match cs with
  | "."%char :: r =>
      match digits_run int 0 r with
      | (_, O, _) => None
      | res => Some res
      end
  | _ => Some (int, O, cs)
  end.

(** The optional exponent. *)
Definition exp_part (cs : list ascii) : option (Z * list ascii) :=
  let unsigned (sign : Z) (r : list ascii) :=
    match digits_run 0 0 r with
    | (_, O, _) => None
    | (v, _, r') => Some ((sign * Z.of_N v)%Z, r')
    end in
  match cs with
  | c :: r =>
      if Ascii.eqb c "e" || Ascii.eqb c "E" then
        match r with
        | "+"%char :: r' => unsigned 1%Z r'
        | "-"%char :: r' => unsigned (-1)%Z r'
        | _ => unsigned 1%Z r
        end
      else Some (0%Z, cs)
  | [] => Some (0%Z, [])
  end.

Definition parse_number (cs : list ascii) : option (json * list ascii) :=
  let '(neg, cs1) :=
    match cs with
    | "-"%char :: r => (true, r)
    | _ => (false, cs)
    end in
  match int_part cs1 with
  | None => None
  | Some (i, cs2) =>
      match frac_part i cs2 with
      | None => None
      | Some (d, flen, cs3) =>
          match exp_part cs3 with
          | None => None
          | Some (e, cs4) => Some (JNumber neg d (e - Z.of_nat flen), cs4)
          end
      end
  end.

Definition byte (n : N) : ascii := ascii_of_N n.

(** UTF-8 for a code point. *)
Definition utf8 (n : N) : list ascii :=
  if (n <? 128)%N then [byte n]
  else if (n <? 2048)%N then
    [byte (192 + n / 64); byte (128 + n mod 64)]
  else if (n <? 65536)%N then
    [byte (224 + n / 4096); byte (128 + (n / 64) mod 64); byte (128 + n mod 64)]
  else
    [byte (240 + n / 262144); byte (128 + (n / 4096) mod 64);
     byte (128 + (n / 64) mod 64); byte (128 + n mod 64)].

(** Four hexadecimal digits of a [\u] escape. *)
Definition hex4 (cs : list ascii) : option (N * list ascii) :=
  match cs with
  | a :: b :: c :: d :: r =>
      match hex_digit a, hex_digit b, hex_digit c, hex_digit d with
      | Some x, Some y, Some z, Some w =>
          Some ((((x * 16 + y) * 16 + z) * 16 + w)%N, r)
      | _, _, _, _ => None
      end
  | _ => None
  end.

(** A [\u] escape after its four digits: a high surrogate directly followed
    by an escaped low surrogate makes one code point; any other unit stands
    alone. *)
Definition code_point (u : N) (cs : list ascii) : N * list ascii :=
  if (55296 <=? u)%N && (u <=? 56319)%N then
    match cs with
    | "\"%char :: "u"%char :: r =>
        match hex4 r with
        | Some (l, r') =>
            if (56320 <=? l)%N && (l <=? 57343)%N
            then ((65536 + (u - 55296) * 1024 + (l - 56320))%N, r')
            else (u, cs)
        | None => (u, cs)
        end
    | _ => (u, cs)
    end
  else (u, cs).

(** The characters of a string after its opening quote, up to and including
    the closing quote. *)
Fixpoint parse_chars (fuel : nat) (acc : list ascii) (cs : list ascii)
  : option (string * list ascii) :=
  match fuel with
  | O => None
  | S fuel' =>
      match cs with
      | [] => None
      | "034"%char :: r => Some (string_of_list_ascii (rev acc), r)
      | "\"%char :: e :: r =>
          let simple (c : ascii) := parse_chars fuel' (c :: acc) r in
          match nat_of_ascii e with
          | 34 => simple "034"%char
          | 92 => simple "\"%char
          | 47 => simple "/"%char
          | 98 => simple (ascii_of_nat 8)
          | 102 => simple (ascii_of_nat 12)
          | 110 => simple (ascii_of_nat 10)
          | 114 => simple (ascii_of_nat 13)
          | 116 => simple (ascii_of_nat 9)
          | 117 =>
              match hex4 r with
              | Some (u, r') =>
                  let '(p, r'') := code_point u r' in
                  parse_chars fuel' (rev (utf8 p) ++ acc) r''
              | None => None
              end
          | _ => None
          end
      | c :: r =>
          if (nat_of_ascii c <? 32)%nat then None
          else parse_chars fuel' (c :: acc) r
      end
  end.

Definition parse_string (cs : list ascii) : option (string * list ascii) :=
  parse_chars (S (List.length cs)) [] cs.

Fixpoint strip_prefix (p : list ascii) (cs : list ascii) : option (list ascii) :=
  match p, cs with
  | [], _ => Some cs
  | a :: p', b :: r => if Ascii.eqb a b then strip_prefix p' r else None
  | _ :: _, [] => None
  end.

Definition keyword (word : string) (v : json) (cs : list ascii)
  : option (json * list ascii) :=
  option_map (fun r => (v, r)) (strip_prefix (list_ascii_of_string word) cs).

(** A value, the elements of an array after one of them has been read, and
    the members of an object after one of them has been read. *)
Fixpoint parse_value (fuel : nat) (cs : list ascii) : option (json * list ascii) :=
  match fuel with
  | O => None
  | S fuel' =>
      match skip_ws cs with
      | "{"%char :: r =>
          match skip_ws r with
          | "}"%char :: r' => Some (JObject [], r')
          | r' => parse_members fuel' [] r'
          end
      | "["%char :: r =>
          match skip_ws r with
          | "]"%char :: r' => Some (JArray [], r')
          | r' => parse_elements fuel' [] r'
          end
      | "034"%char :: r =>
          option_map (fun '(s, r') => (JString s, r')) (parse_string r)
      | "t"%char :: _ => keyword "true" (JBool true) (skip_ws cs)
      | "f"%char :: _ => keyword "false" (JBool false) (skip_ws cs)
      | "n"%char :: _ => keyword "null" JNull (skip_ws cs)
      | cs' => parse_number cs'
      end
  end

with parse_elements (fuel : nat) (acc : list json) (cs : list ascii)
  : option (json * list ascii) :=
  match fuel with
  | O => None
  | S fuel' =>
      match parse_value fuel' cs with
      | None => None
      | Some (v, r) =>
          match skip_ws r with
          | ","%char :: r' => parse_elements fuel' (v :: acc) r'
          | "]"%char :: r' => Some (JArray (rev (v :: acc)), r')
          | _ => None
          end
      end
  end

with parse_members (fuel : nat) (acc : list (string * json)) (cs : list ascii)
  : option (json * list ascii) :=
  match fuel with
  | O => None
  | S fuel' =>
      match skip_ws cs with
      | "034"%char :: r =>
          match parse_string r with
          | None => None
          | Some (k, r1) =>
              match skip_ws r1 with
              | ":"%char :: r2 =>
                  match parse_value fuel' r2 with
                  | None => None
                  | Some (v, r3) =>
                      match skip_ws r3 with
                      | ","%char :: r4 => parse_members fuel' ((k, v) :: acc) r4
                      | "}"%char :: r4 => Some (JObject (rev ((k, v) :: acc)), r4)
                      | _ => None
                      end
                  end
              | _ => None
              end
          end
      | _ => None
      end
  end.

(** [JSON.parse(text)]: [None] stands for the SyntaxError it throws. Every
    call in the three parsers above is made after a byte has been consumed
    or is followed by one that consumes a byte, so twice the length of the
    text is fuel enough. *)
Definition JSON_parse (text : string) : option json :=
  let cs := list_ascii_of_string text in
  match parse_value (2 * List.length cs + 2) cs with
  | Some (v, r) =>
      match skip_ws r with
      | [] => Some v
      | _ :: _ => None
      end
  | None => None
  end.

End Json.

(** ** Arrays *)

Module Arr.

Section Sort.
Context {A : Type}.
Variable comparefn : A -> A -> float.

(** [x] is placed behind [y] exactly when [comparefn x y > 0]; a NaN from
    the comparator counts as zero. *)
Definition after (x y : A) : bool := Num.gt (comparefn x y) 0%float.

Fixpoint insert (x : A) (l : list A) : list A :=
  match l with
  | [] => [x]
  | y :: r => if after x y then y :: insert x r else x :: l
  end.

(** [a.sort(comparefn)]: a stable sort. Elements are inserted from the
    right, each in front of the elements it does not have to follow, so
    elements the comparator ties keep their order. With a comparator
    that is a consistent ordering every stable sort returns this list.
    With one that is not (here: when a score is NaN) the language leaves
    the order to the engine, and this list is one of the orders an engine
    may return: the order of such a list is stated below for one sample
    input only, and otherwise as a fact true of every rearrangement. *)
Definition sort (l : list A) : list A := fold_right insert [] l.
End Sort.

(** [a.slice(0, n)]. *)
Definition slice0 {A} (n : nat) (l : list A) : list A := firstn n l.

(** [a.filter(p).length]. *)
Definition count {A} (p : A -> bool) (l : list A) : nat :=
  List.length (filter p l).

End Arr.

(** ** The data model *)

(** A row of the grouped query: one cohort. A NULL [avg_age_days] behaves as
    0 in every use below ([null < 1] and [Math.max(null, 0.5)]). *)
Module Cohort.
Record t : Type := mk {
  category : string;
  user_type : string;
  count : Z;
  samples : string;
  avg_age_days : float
}.
End Cohort.

(** A JavaScript value that is a string or a member of [Object.prototype]. *)
Inductive ref : Type :=
| Text (s : string)
| Member (name : string).

Record RiskAnalysis : Type := {
  category : string;
  user_type : string;
  complaint_count : Z;
  severity_score : float;
  sentiment : Json.json;
  trend : string;
  velocity : float;
  sample_feedback : list string;
  recommendation : ref
}.

(** The object [analysis], which is both the body of the response and the
    value written to the cache. It stands for its JSON text, in which a NaN
    or infinite number reads [null]. *)
Record Analysis : Type := {
  analysis_time : string;
  total_risks : nat;
  critical_count : nat;
  top_risks : list RiskAnalysis;
  all_risks : list RiskAnalysis;
  cached : bool
}.

(** [{ ...cached, cached: true }]. *)
Definition with_cached_true (a : Analysis) : Analysis :=
  {| analysis_time := analysis_time a;
     total_risks := total_risks a;
     critical_count := critical_count a;
     top_risks := top_risks a;
     all_risks := all_risks a;
     cached := true |}.

(** ** The environment *)

(** What [env.AI.run] does for one call: it rejects, or it returns an object
    whose [response] is the given text (an absent [response] is the empty
    text, by [aiResponse.response || '']). A [response] that is not a string
    makes [aiText.match] throw inside the same [try], which is [AiRejects]
    to everything below. *)
Inductive ai_outcome : Type :=
| AiRejects
| AiResponds (response : string).

(** The KV namespace: its entries with their TTL in seconds, and whether its
    reads and its writes fail. Under the key used here it holds only what
    [analyzeSeverity] wrote. *)
Record KVNamespace : Type := {
  entries : list (string * (Analysis * Z));
  get_fails : bool;
  put_fails : bool
}.

Record Env : Type := {
  DB : option (list Cohort.t);          (* [None]: the query rejects *)
  AI : nat -> string -> ai_outcome;  (* by call number and prompt *)
  CACHE : option KVNamespace;        (* [None]: no binding *)
  now : string                       (* [new Date().toISOString()] *)
}.

(** ** Effects: a log of calls, the cache, and uncaught errors *)

Inductive event : Type :=
| CacheGet (key : string)
| DbQuery
| AiRun (call : nat) (content : string)
| ConsoleLog (message : string)
| CachePut (key : string) (value : Analysis) (expirationTtl : Z).

Inductive error : Type :=
| CacheReadError
| CacheWriteError
| StoreError.

Inductive result (A : Type) : Type :=
| Ok (a : A)
| Throw (e : error).
Arguments Ok {A} a.
Arguments Throw {A} e.

Record World : Type := {
  cache : option KVNamespace;
  events : list event
}.

Definition M (A : Type) : Type := World -> result A * World.

Definition ret {A} (a : A) : M A := fun w => (Ok a, w).

Definition bind {A B} (m : M A) (k : A -> M B) : M B :=
  fun w =>
    match m w with
    | (Ok a, w') => k a w'
    | (Throw e, w') => (Throw e, w')
    end.

Definition throw {A} (e : error) : M A := fun w => (Throw e, w).

Definition emit (ev : event) : M unit :=
  fun w => (Ok tt, {| cache := cache w; events := events w ++ [ev] |}).

Definition get_cache : M (option KVNamespace) := fun w => (Ok (cache w), w).

Definition set_cache (kv : KVNamespace) : M unit :=
  fun w => (Ok tt, {| cache := Some kv; events := events w |}).

Declare Scope js_scope.
Delimit Scope js_scope with js.
Notation "x <- m ;; k" := (bind m (fun x => k))
  (at level 61, m at next level, right associativity) : js_scope.
Notation "m ;; k" := (bind m (fun _ => k))
  (at level 61, right associativity) : js_scope.
Local Open Scope js_scope.

Definition remove_key {A} (k : string) (o : list (string * A)) : list (string * A) :=
  filter (fun kv => negb (String.eqb (fst kv) k)) o.

(** [env.CACHE?.get(key, 'json')]: [undefined] without a binding, otherwise
    the entry or [null]. *)
Definition cache_get (key : string) : M (option Analysis) :=
  kv <- get_cache ;;
  match kv with
  | None => ret None
  | Some ns =>
      emit (CacheGet key) ;;
      if get_fails ns then throw CacheReadError
      else ret (option_map fst (Obj.own (entries ns) key))
  end.

(** The cache after a successful write. *)
Definition written (ns : KVNamespace) (key : string) (value : Analysis) (ttl : Z)
  : KVNamespace :=
  {| entries := (key, (value, ttl)) :: remove_key key (entries ns);
     get_fails := get_fails ns;
     put_fails := put_fails ns |}.

(** [env.CACHE?.put(key, JSON.stringify(value), { expirationTtl })]. *)
Definition cache_put (key : string) (value : Analysis) (expirationTtl : Z) : M unit :=
  kv <- get_cache ;;
  match kv with
  | None => ret tt
  | Some ns =>
      emit (CachePut key value expirationTtl) ;;
      if put_fails ns then throw CacheWriteError
      else set_cache (written ns key value expirationTtl)
  end.

(** [env.DB.prepare(...).all()]. *)
Definition db_all (env : Env) : M (list Cohort.t) :=
  emit DbQuery ;;
  match DB env with
  | None => throw StoreError
  | Some rows => ret rows
  end.

(** [env.AI.run(model, { messages, max_tokens })]: a rejection is an outcome,
    for the [try] around the call. *)
Definition ai_run (env : Env) (call : nat) (content : string) : M ai_outcome :=
  emit (AiRun call content) ;;
  ret (AI env call content).

(** ** The pipeline of [analyzeSeverity] *)

Local Open Scope float_scope.

Definition cacheKey : string := "analysis:latest".

(** [row.user_type === 'enterprise' ? 3.0 : 1.0]. *)
Definition userMultiplier (user_type : string) : float :=
  if String.eqb user_type "enterprise" then 3.0 else 1.0.

Definition criticalCategories : list (string * float) :=
  [ ("performance", 2.0); ("reliability", 1.8); ("billing", 1.7);
    ("security", 2.5); ("data-loss", 3.0) ].

(** [criticalCategories[row.category] || 1.0], as the factor of [score *=]. *)
Definition categoryMultiplier (category : string) : float :=
  Obj.number_or (Obj.get criticalCategories category) 1.0.

(** [row.avg_age_days < 1 ? 1.5 : row.avg_age_days < 7 ? 1.2 : 1.0]. *)
Definition recencyMultiplier (avg_age_days : float) : float :=
  if avg_age_days <? 1 then 1.5
  else if avg_age_days <? 7 then 1.2
  else 1.0.

(** [score] when the [try] block is entered. *)
Definition score_before_ai (row : Cohort.t) : float :=
  Num.of_Z (Cohort.count row) * 10
  * userMultiplier (Cohort.user_type row)
  * categoryMultiplier (Cohort.category row)
  * recencyMultiplier (Cohort.avg_age_days row).

Definition neutral : Json.json := Json.JString "neutral".

Definition is_string (v : Json.json) (s : string) : bool :=
  match v with
  | Json.JString t => String.eqb t s
  | _ => false
  end.

(** The double quote, to write JSON text with. *)
Definition q : string := String "034"%char EmptyString.

(** The content of the user message. *)
Definition prompt (samples : string) : string :=
  ("Analyze sentiment of these complaints. Return JSON with format: {"
   ++ q ++ "sentiment" ++ q ++ ": " ++ q ++ "critical|negative|neutral|positive" ++ q
   ++ ", " ++ q ++ "confidence" ++ q ++ ": 0-100, "
   ++ q ++ "key_issue" ++ q ++ ": " ++ q ++ "one sentence" ++ q ++ "}"
   ++ String "010"%char (String "010"%char "Complaints: ") ++ samples)%string.

(** The content sent to the classifier for a row. *)
Definition content_for (row : Cohort.t) : string :=
  prompt (Str.substring0 800 (Cohort.samples row)).

(** The [else] branch: keyword detection on the lower-cased text. *)
Definition keyword_sentiment (aiText : string) : Json.json :=
  if Str.includes "critical" (Str.toLowerCase aiText) then Json.JString "critical"
  else if Str.includes "negative" (Str.toLowerCase aiText) then Json.JString "negative"
  else neutral.

(** [parsed.sentiment || 'neutral']. The text parsed starts with a brace, so
    [parsed] is an object. *)
Definition parsed_sentiment (parsed : Json.json) : Json.json :=
  match parsed with
  | Json.JObject members =>
      match Json.member "sentiment" members with
      | Some v => if Json.truthy v then v else neutral
      | None => neutral
      end
  | _ => neutral
  end.

(** The value assigned to [sentiment] inside the [try], or [None] when the
    block throws before the assignment: [env.AI.run] rejects, or
    [JSON.parse] throws on the matched text. Nothing after the assignment
    can throw. *)
Definition assigned_sentiment (outcome : ai_outcome) : option Json.json :=
  match outcome with
  | AiRejects => None
  | AiResponds aiText =>
      match Str.match_braces aiText with
      | Some m => option_map parsed_sentiment (Json.JSON_parse m)
      | None => Some (keyword_sentiment aiText)
      end
  end.

(** [if (sentiment === 'critical') score *= 1.4;
     else if (sentiment === 'negative') score *= 1.2;]. *)
Definition sentiment_boost (sentiment : Json.json) (score : float) : float :=
  if is_string sentiment "critical" then score * 1.4
  else if is_string sentiment "negative" then score * 1.2
  else score.

(** [sentiment] and [score] after the [try ... catch]: on an exception both
    keep the values they had before the block. *)
Definition after_try (outcome : ai_outcome) (score : float) : Json.json * float :=
  match assigned_sentiment outcome with
  | Some sentiment => (sentiment, sentiment_boost sentiment score)
  | None => (neutral, score)
  end.

(** [row.count / Math.max(row.avg_age_days, 0.5)]. *)
Definition velocity_of (row : Cohort.t) : float :=
  Num.of_Z (Cohort.count row) / Num.Math_max (Cohort.avg_age_days row) 0.5.

Definition trend_of (velocity : float) : string :=
  if Num.gt velocity 5 then "accelerating"
  else if Num.gt velocity 2 then "rising"
  else "stable".

(** [if (trend === 'accelerating') score *= 1.3;]. *)
Definition trend_boost (trend : string) (score : float) : float :=
  if String.eqb trend "accelerating" then score * 1.3 else score.

Definition recommendations : list (string * string) :=
  [ ("performance_enterprise_accelerating",
     "URGENT: Enterprise performance degradation. Escalate to engineering + customer success immediately.");
    ("billing_enterprise",
     "High churn risk. Schedule immediate call with affected accounts. Review billing clarity.");
    ("reliability_enterprise",
     "SLA breach risk. Engage SRE team. Prepare incident report.");
    ("dx_developer",
     "Developer experience issue. Prioritize docs update + devrel outreach.");
    ("documentation",
     "Update docs within 48h. Consider video tutorial.") ]%string.

(** [recommendations[k]] with its truthiness, for a chain of [||]. *)
Definition recommended (k : string) : option ref :=
  match Obj.get recommendations k with
  | Obj.Own s => if String.eqb s "" then None else Some (Text s)
  | Obj.FromPrototype name => Some (Member name)
  | Obj.Missing => None
  end.

Definition generateRecommendation
    (category userType trend : string) (sentiment : Json.json) : ref :=
  let key := (category ++ "_" ++ userType ++ "_" ++ trend)%string in
  match recommended key with
  | Some r => r
  | None =>
      match recommended (category ++ "_" ++ userType)%string with
      | Some r => r
      | None => Text "Monitor closely. Consider adding to sprint backlog."
      end
  end.

(** The body of the loop for one row, given what the classifier did. *)
Definition risk_of (row : Cohort.t) (outcome : ai_outcome) : RiskAnalysis :=
  let score := score_before_ai row in
  let '(sentiment, score) := after_try outcome score in
  let velocity := velocity_of row in
  let trend := trend_of velocity in
  let score := trend_boost trend score in
  let recommendation :=
    generateRecommendation (Cohort.category row) (Cohort.user_type row) trend sentiment in
  {| category := Cohort.category row;
     user_type := Cohort.user_type row;
     complaint_count := Cohort.count row;
     severity_score := Num.Math_round score;
     sentiment := sentiment;
     trend := trend;
     velocity := Num.Math_round (velocity * 10) / 10;
     sample_feedback := Arr.slice0 3 (Str.split " ||| " (Cohort.samples row));
     recommendation := recommendation |}.

Local Open Scope js_scope.

(** One iteration: the classifier is called on the first 800 characters of
    the samples, and a failure inside the [try] is logged. *)
Definition analyze_row (env : Env) (call : nat) (row : Cohort.t) : M RiskAnalysis :=
  outcome <- ai_run env call (content_for row) ;;
  match assigned_sentiment outcome with
  | Some _ => ret tt
  | None => emit (ConsoleLog "AI analysis failed:")
  end ;;
  ret (risk_of row outcome).

(** [for (const row of results) { ...; risks.push(...) }]. *)
Fixpoint analyze_rows (env : Env) (call : nat) (rows : list Cohort.t)
  : M (list RiskAnalysis) :=
  match rows with
  | [] => ret []
  | row :: rest =>
      risk <- analyze_row env call row ;;
      risks <- analyze_rows env (S call) rest ;;
      ret (risk :: risks)
  end.

(** [(a, b) => b.severity_score - a.severity_score]. *)
Definition by_score (a b : RiskAnalysis) : float :=
  (severity_score b - severity_score a)%float.

(** From [risks.sort] to the object [analysis]. *)
Definition assemble (time : string) (risks : list RiskAnalysis) : Analysis :=
  let risks := Arr.sort by_score risks in
  {| analysis_time := time;
     total_risks := List.length risks;
     critical_count := Arr.count (fun r => Num.gt (severity_score r) 100) risks;
     top_risks := Arr.slice0 5 risks;
     all_risks := risks;
     cached := false |}.

Definition analyzeSeverity (env : Env) : M Analysis :=
  hit <- cache_get cacheKey ;;
  match hit with
  | Some payload => ret (with_cached_true payload)
  | None =>
      results <- db_all env ;;
      risks <- analyze_rows env 0 results ;;
      let analysis := assemble (now env) risks in
      cache_put cacheKey analysis 300 ;;
      ret analysis
  end.

(** One invocation, from the cache as the environment has it. *)
Definition invoke (env : Env) : result Analysis * World :=
  analyzeSeverity env {| cache := CACHE env; events := [] |}.

(** ** The loop without its effects *)

(** The records the loop pushes, the calls being numbered from [call]. *)
Fixpoint risks_from (env : Env) (call : nat) (rows : list Cohort.t)
  : list RiskAnalysis :=
  match rows with
  | [] => []
  | row :: rest =>
      risk_of row (AI env call (content_for row)) :: risks_from env (S call) rest
  end.

(** The events the loop leaves in the log. *)
Fixpoint loop_events (env : Env) (call : nat) (rows : list Cohort.t) : list event :=
  match rows with
  | [] => []
  | row :: rest =>
      AiRun call (content_for row)
      :: match assigned_sentiment (AI env call (content_for row)) with
         | Some _ => []
         | None => [ConsoleLog "AI analysis failed:"]
         end
      ++ loop_events env (S call) rest
  end.

(** The analysis computed on a cache miss. *)
Definition fresh (env : Env) (rows : list Cohort.t) : Analysis :=
  assemble (now env) (risks_from env 0 rows).



(** ** The specification's formulas, as it words them *)

Module Spec.

Local Open Scope float_scope.

Definition userMult (u : string) : float :=
  if String.eqb u "enterprise" then 3.0 else 1.0.

(** The lookup table of the specification, 1.0 for every unlisted category. *)
Definition catMult (k : string) : float :=
  if String.eqb k "performance" then 2.0
  else if String.eqb k "reliability" then 1.8
  else if String.eqb k "billing" then 1.7
  else if String.eqb k "security" then 2.5
  else if String.eqb k "data-loss" then 3.0
  else 1.0.

Definition recencyMult (a : float) : float :=
  if a <? 1 then 1.5 else if a <? 7 then 1.2 else 1.0.

(** 1.4 for critical, 1.2 for negative, 1.0 for neutral, positive and any
    other value. *)
Definition sentMult (s : Json.json) : float :=
  if is_string s "critical" then 1.4
  else if is_string s "negative" then 1.2
  else 1.0.

Definition trendMult (t : string) : float :=
  if String.eqb t "accelerating" then 1.3 else 1.0.

(** The seven-step chain: six multiplications from the left, then rounding. *)
Definition score (c : Z) (u k : string) (a : float) (s : Json.json) (t : string)
  : float :=
  Num.Math_round
    (Num.of_Z c * 10 * userMult u * catMult k * recencyMult a * sentMult s
     * trendMult t).

(** The larger of two numbers. *)
Definition max (x y : float) : float := if x <? y then y else x.

(** Complaints per day, the age counting for half a day at least. *)
Definition velocity (c : Z) (a : float) : float := Num.of_Z c / max a 0.5.

(** [n] is the integer nearest to [m * 2^e], a half going up:
    [n - 1/2 <= m * 2^e < n + 1/2], written without fractions. *)
Definition nearest_integer (m e n : Z) : Prop :=
  ((2 * n - 1) * 2 ^ Z.max 0 (- e) <= 2 * m * 2 ^ Z.max 0 e
   < (2 * n + 1) * 2 ^ Z.max 0 (- e))%Z.

(** The number [r] is the integer [n]. *)
Definition is_integer (r : float) (n : Z) : Prop :=
  match Prim2SF r with
  | S754_zero _ => n = 0%Z
  | S754_finite s m e =>
      (cond_Zopp s (Zpos m) * 2 ^ Z.max 0 e = n * 2 ^ Z.max 0 (- e))%Z
  | _ => False
  end.

(** [r] is [x] rounded to the nearest integer: that integer for a finite
    [x] (a zero taking the sign of [x]), and [x] itself when it is a zero,
    an infinity or NaN. *)
Definition rounded (x r : float) : Prop :=
  match Prim2SF x with
  | S754_finite s m e =>
      exists n : Z,
        nearest_integer (cond_Zopp s (Zpos m)) e n /\
        is_integer r n /\
        (n = 0%Z -> r = if s then neg_zero else zero)
  | _ => r = x
  end.

(** [r] is [x] rounded to one decimal place: the tenth part of [x * 10]
    rounded to the nearest integer. *)
Definition round1 (x r : float) : Prop :=
  exists i : float, rounded (x * 10) i /\ r = i / 10.

(** The keyword scan of the response text. *)
Definition keyword_fallback (text : string) : Json.json :=
  if Str.includes "critical" (Str.toLowerCase text) then Json.JString "critical"
  else if Str.includes "negative" (Str.toLowerCase text) then Json.JString "negative"
  else Json.JString "neutral".

(** The four sentiment values. *)
Definition is_sentiment (s : Json.json) : Prop :=
  s = Json.JString "critical" \/ s = Json.JString "negative" \/
  s = Json.JString "neutral" \/ s = Json.JString "positive".

(** Descending order of [severity_score]: each entry is at least every later
    one. *)
Definition descending (l : list RiskAnalysis) : Prop :=
  StronglySorted (fun a b => Num.ge (severity_score a) (severity_score b) = true) l.

(** [x] and [y] carry the same score. *)
Definition tied (x y : RiskAnalysis) : bool :=
  (severity_score x =? severity_score y)%float.

End Spec.

(** [Str.join sep] undoes [Str.split sep]. *)
Fixpoint join (sep : string) (l : list string) : string :=
  match l with
  | [] => EmptyString
  | [x] => x
  | x :: r => (x ++ sep ++ join sep r)%string
  end.

(** [l] is [s] split on the separator [sep]: [s] itself when [sep] does not
    occur in it; otherwise the text before the first occurrence of [sep],
    followed by what comes after that occurrence, split in the same way. *)
Inductive split_on (sep : string) : string -> list string -> Prop :=
| split_whole (s : string) :
    (forall x y : string, s <> (x ++ sep ++ y)%string) ->
    split_on sep s [s]
| split_first (x rest : string) (l : list string) :
    (forall x' y' : string,
       (x ++ sep ++ rest)%string = (x' ++ sep ++ y')%string ->
       (String.length x <= String.length x')%nat) ->
    split_on sep rest l ->
    split_on sep (x ++ sep ++ rest)%string (x :: l).

(** ** Sample inputs *)

Module Sample.

Local Open Scope float_scope.
Local Open Scope string_scope.

(** [{"sentiment": "<s>", "confidence": 90}]. *)
Definition reply (s : string) : string :=
  "{" ++ q ++ "sentiment" ++ q ++ ": " ++ q ++ s ++ q ++ ", "
  ++ q ++ "confidence" ++ q ++ ": 90}".

Definition says_critical : ai_outcome := AiResponds (reply "critical").

(** Three enterprise performance complaints, half a day old on average. *)
Definition perf : Cohort.t :=
  Cohort.mk "performance" "enterprise" 3 "slow ||| timeout ||| rate limit" 0.5.

(** A cohort whose category is the name of a member of [Object.prototype]. *)
Definition ctor (user_type : string) : Cohort.t :=
  Cohort.mk "constructor" user_type 3 "a ||| b ||| c ||| d" 0.5.

Definition misc : Cohort.t :=
  Cohort.mk "miscellaneous" "developer" 1 "docs unclear" 10.

Definition healthy_cache : KVNamespace :=
  {| entries := []; get_fails := false; put_fails := false |}.

Definition env_of (rows : list Cohort.t) (ai : nat -> string -> ai_outcome)
    (kv : option KVNamespace) : Env :=
  {| DB := Some rows; AI := ai; CACHE := kv; now := "2025-01-01T00:00:00.000Z" |}.

(** A response with a brace-delimited span that is not JSON. *)
Definition malformed : string := "{sentiment: critical}".

End Sample.

(** ** Notions used to state facts about numbers *)

(** [r] is a number (not a NaN) of sign [s]. *)
Definition signed (s : bool) (r : spec_float) : Prop :=
  match r with
  | S754_zero s' | S754_infinity s' | S754_finite s' _ _ => s' = s
  | S754_nan => False
  end.

(** [r] is a number of sign [s] other than a zero. *)
Definition nonzero_signed (s : bool) (r : spec_float) : Prop :=
  match r with
  | S754_infinity s' | S754_finite s' _ _ => s' = s
  | _ => False
  end.

(** The exponent of the subnormal numbers, -1074. *)
Definition emin64 : Z := Eval compute in SpecFloat.emin prec emax.

(** A finite number above zero: what every multiplier of the table is. *)
Definition positive_finite (k : float) : Prop :=
  exists m e, Prim2SF k = S754_finite false m e.

(** Neither negative nor NaN: +0, a positive finite number or +infinity. *)
Definition not_negative (x : float) : Prop := signed false (Prim2SF x).

(** ** The classifier calls of a log *)

Fixpoint ai_calls (log : list event) : list (nat * string) :=
  match log with
  | [] => []
  | AiRun call content :: rest => (call, content) :: ai_calls rest
  | _ :: rest => ai_calls rest
  end.

(** Whether an invocation gets as far as the query: there is no cache
    binding, or the read works and finds nothing. *)
Definition reaches_store (env : Env) : bool :=
  match CACHE env with
  | None => true
  | Some ns =>
      negb (get_fails ns) &&
      match Obj.own (entries ns) cacheKey with
      | None => true
      | Some _ => false
      end
  end.

(** The log up to the query. *)
Definition read_events (env : Env) : list event :=
  match CACHE env with
  | None => []
  | Some _ => [CacheGet cacheKey]
  end.

(** The texts of two answers of [generateRecommendation]. *)
Definition urgent : string :=
  "URGENT: Enterprise performance degradation. Escalate to engineering + customer success immediately.".

Definition monitor : string := "Monitor closely. Consider adding to sprint backlog.".

(** ** [getTopRisks] *)

(** What [analysis.json()] gives back for a recommendation: a text as it
    is; nothing for a function inherited from [Object.prototype], which
    [JSON.stringify] leaves out of the object; an empty object for
    [Object.prototype] itself (found under [__proto__]), which has no
    enumerable property. *)
Inductive parsed_ref : Type :=
| PText (s : string)
| PEmptyObject
| PUndefined.

Definition parse_ref (r : ref) : parsed_ref :=
  match r with
  | Text s => PText s
  | Member name => if String.eqb name "__proto__" then PEmptyObject else PUndefined
  end.

(** The value of [summary.recommendation]: a text or an empty object. *)
Inductive advice : Type :=
| Advice (s : string)
| EmptyObject.

(** [data.top_risks[0]?.recommendation || 'No critical issues detected']. *)
Definition first_recommendation (top : list RiskAnalysis) : advice :=
  match top with
  | [] => Advice "No critical issues detected"
  | risk :: _ =>
      match parse_ref (recommendation risk) with
      | PText s => if String.eqb s "" then Advice "No critical issues detected" else Advice s
      | PEmptyObject => EmptyObject
      | PUndefined => Advice "No critical issues detected"
      end
  end.

Record TopRisks : Type := {
  timestamp : string;
  critical_alerts : list RiskAnalysis;
  total_critical : nat;
  summary_recommendation : advice
}.

Local Open Scope js_scope.

(** [timestamp] is the clock read after the analysis has returned. *)
Definition getTopRisks (env : Env) (timestamp : string) : M TopRisks :=
  data <- analyzeSeverity env ;;
  ret {| timestamp := timestamp;
         critical_alerts := Arr.slice0 3 (top_risks data);
         total_critical := critical_count data;
         summary_recommendation := first_recommendation (top_risks data) |}.

(** [getTopRisks] run from the cache as the environment has it. *)
Definition top_risks_view (env : Env) (timestamp : string)
  : result TopRisks * World :=
  getTopRisks env timestamp {| cache := CACHE env; events := [] |}.

(** ** The other queries *)

(** A record of the table [feedback]. *)
Module FeedbackItem.
Record t : Type := mk {
  id : Z;
  source : string;
  content : string;
  sentiment : option float;
  category : string;
  user_type : string;
  created_at : string
}.
End FeedbackItem.

(** A row of the query of [getTrends]. *)
Module DailyCount.
Record t : Type := mk {
  category : string;
  date : string;
  daily_count : Z
}.
End DailyCount.

(** What the two plain queries return: [SELECT * FROM feedback ORDER BY
    created_at DESC], and the daily counts per category; [None] when the
    query rejects. *)
Record Queries : Type := {
  feedback_rows : option (list FeedbackItem.t);
  trend_rows : option (list DailyCount.t)
}.

Definition query {A} (rows : option A) : M A :=
  emit DbQuery ;;
  match rows with
  | None => throw StoreError
  | Some r => ret r
  end.

(** ** Responses *)

(** A [Headers] object: names are case-insensitive and held in lower case,
    one value per name. *)
Definition Headers : Type := list (string * string).

(** [headers.get(name)]. *)
Definition headers_get (h : Headers) (name : string) : option string :=
  Obj.own h (Str.toLowerCase name).

(** [headers.set(name, value)]. *)
Definition headers_set (h : Headers) (name value : string) : Headers :=
  (Str.toLowerCase name, value) :: remove_key (Str.toLowerCase name) h.

(** [new Headers(init)] for an object literal [init]. *)
Definition headers_of (init : list (string * string)) : Headers :=
  fold_left (fun h kv => headers_set h (fst kv) (snd kv)) init [].

Inductive Body : Type :=
| NoBody
| FeedbackJson (rows : list FeedbackItem.t)
| AnalysisJson (analysis : Analysis)
| TopRisksJson (risks : TopRisks)
| TrendsJson (trends : list DailyCount.t) (insight : string)
| OpenAPISpec
| DashboardHTML.

Record Response : Type := {
  status : Z;
  statusText : string;
  headers : Headers;
  body : Body
}.

(** [Response.json(data)]. *)
Definition Response_json (data : Body) : Response :=
  {| status := 200; statusText := "";
     headers := headers_of [("content-type", "application/json")];
     body := data |}.

(** [new Response(body, { headers })]. *)
Definition Response_new (data : Body) (init : list (string * string)) : Response :=
  {| status := 200; statusText := ""; headers := headers_of init; body := data |}.

Definition corsHeaders : list (string * string) :=
  [ ("Access-Control-Allow-Origin", "*");
    ("Access-Control-Allow-Methods", "GET, POST, OPTIONS");
    ("Access-Control-Allow-Headers", "Content-Type") ].

(** [addCorsHeaders(response, corsHeaders)]: a copy of the headers with each
    entry of [cors] set, around the same body, status and status text. *)
Definition addCorsHeaders (response : Response) (cors : list (string * string))
  : Response :=
  {| status := status response;
     statusText := statusText response;
     headers := fold_left (fun h kv => headers_set h (fst kv) (snd kv)) cors
                  (headers response);
     body := body response |}.

Definition getFeedback (q : Queries) : M Response :=
  results <- query (feedback_rows q) ;;
  ret (Response_json (FeedbackJson results)).

Definition getTrends (q : Queries) : M Response :=
  results <- query (trend_rows q) ;;
  ret (Response_json
         (TrendsJson results "Velocity analysis shows complaint patterns over time")).

(** A request, as far as [fetch] reads it: the method and the path of the URL. *)
Record Request : Type := {
  method : string;
  pathname : string
}.

(** The handler of the worker. *)
Definition fetch (request : Request) (env : Env) (q : Queries) (timestamp : string)
  : M Response :=
  if String.eqb (method request) "OPTIONS" then
    ret (Response_new NoBody corsHeaders)
  else if String.eqb (pathname request) "/api/feedback" then
    response <- getFeedback q ;;
    ret (addCorsHeaders response corsHeaders)
  else if String.eqb (pathname request) "/api/analyze" then
    analysis <- analyzeSeverity env ;;
    ret (addCorsHeaders (Response_json (AnalysisJson analysis)) corsHeaders)
  else if String.eqb (pathname request) "/api/risks" then
    risks <- getTopRisks env timestamp ;;
    ret (addCorsHeaders (Response_json (TopRisksJson risks)) corsHeaders)
  else if String.eqb (pathname request) "/api/trends" then
    response <- getTrends q ;;
    ret (addCorsHeaders response corsHeaders)
  else if String.eqb (pathname request) "/api/docs" then
    ret (Response_new OpenAPISpec (("Content-Type", "application/json") :: corsHeaders))
  else
    ret (Response_new DashboardHTML [("Content-Type", "text/html")]).

(** The routes that run a query or an analysis. *)
Definition api_paths : list string :=
  [ "/api/feedback"; "/api/analyze"; "/api/risks"; "/api/trends" ].

(** A request served from the cache as the environment has it. *)
Definition serve (request : Request) (env : Env) (q : Queries) (timestamp : string)
  : result Response * World :=
  fetch request env q timestamp {| cache := CACHE env; events := [] |}.

Local Close Scope js_scope.

(** * Facts about numbers *)

Module NumFacts.

Local Open Scope float_scope.

Definition sf_is_nan (s : spec_float) : bool :=
  match s with
  | S754_nan => true
  | _ => false
  end.

Lemma SFcompare_antisym (x y : spec_float) :
  SFcompare y x = option_map CompOpp (SFcompare x y).
Proof.
  destruct x as [sx | sx | | sx mx ex], y as [sy | sy | | sy my ey];
    simpl; try reflexivity;
    try (destruct sx; reflexivity); try (destruct sy; reflexivity);
    try (destruct sx, sy; reflexivity).
  destruct sx, sy; simpl; try reflexivity;
    rewrite (Z.compare_antisym ex ey);
    destruct (ex ?= ey)%Z; simpl; try reflexivity;
    rewrite (ZC4 my mx);
    destruct (Pos.compare_cont Eq mx my); reflexivity.
Qed.

Lemma SFcompare_refl (x : spec_float) :
  sf_is_nan x = false -> SFcompare x x = Some Eq.
Proof.
  destruct x as [s | s | | s m e]; simpl; intros H; try discriminate;
    try (destruct s; reflexivity).
  destruct s; rewrite Z.compare_refl, Pos.compare_cont_refl; reflexivity.
Qed.

Lemma SFcompare_nan (x y : spec_float) :
  SFcompare x y = None <-> sf_is_nan x = true \/ sf_is_nan y = true.
Proof.
  destruct x, y; simpl; split; intros H;
    try discriminate; try tauto; try (destruct H; discriminate); auto.
Qed.

Lemma is_nan_spec (x : float) : is_nan x = sf_is_nan (Prim2SF x).
Proof.
  unfold is_nan. rewrite eqb_spec. unfold SFeqb.
  destruct (sf_is_nan (Prim2SF x)) eqn:E.
  - destruct (Prim2SF x); try discriminate. reflexivity.
  - rewrite (SFcompare_refl _ E). reflexivity.
Qed.

(** [x < y] holds only between numbers. *)
Lemma ltb_numbers (x y : float) :
  (x <? y) = true -> is_nan x = false /\ is_nan y = false.
Proof.
  rewrite ltb_spec, !is_nan_spec. unfold SFltb.
  destruct (SFcompare (Prim2SF x) (Prim2SF y)) eqn:E; try discriminate.
  intros _.
  destruct (sf_is_nan (Prim2SF x)) eqn:Ex, (sf_is_nan (Prim2SF y)) eqn:Ey; auto;
    assert (N : SFcompare (Prim2SF x) (Prim2SF y) = None)
      by (apply SFcompare_nan; auto); congruence.
Qed.

(** Between numbers, [x <= y] is the negation of [y < x]. *)
Lemma leb_negb_ltb (x y : float) :
  is_nan x = false -> is_nan y = false -> (x <=? y) = negb (y <? x).
Proof.
  rewrite leb_spec, ltb_spec, !is_nan_spec. unfold SFleb, SFltb.
  intros Hx Hy. rewrite (SFcompare_antisym (Prim2SF x) (Prim2SF y)).
  destruct (SFcompare (Prim2SF x) (Prim2SF y)) as [c |] eqn:E.
  - destruct c; reflexivity.
  - apply SFcompare_nan in E. destruct E; congruence.
Qed.

(** A NaN is neither below nor above anything. *)
Lemma leb_nan_l (x y : float) : is_nan x = true -> (x <=? y) = false.
Proof.
  rewrite leb_spec, is_nan_spec. unfold SFleb. intros H.
  destruct (Prim2SF x); try discriminate. reflexivity.
Qed.

Lemma leb_nan_r (x y : float) : is_nan y = true -> (x <=? y) = false.
Proof.
  rewrite leb_spec, is_nan_spec. unfold SFleb. intros H.
  destruct (Prim2SF y); try discriminate. destruct (Prim2SF x); reflexivity.
Qed.

End NumFacts.

(** * Facts about strings *)

Module StrFacts.

Local Open Scope string_scope.

Fixpoint drop (n : nat) (s : string) : string :=
  match n, s with
  | O, _ => s
  | S k, String _ r => drop k r
  | S _, EmptyString => EmptyString
  end.

Lemma append_assoc (a b c : string) : (a ++ b) ++ c = a ++ (b ++ c).
Proof. induction a; simpl; congruence. Qed.

Lemma append_empty_r (a : string) : a ++ "" = a.
Proof. induction a; simpl; congruence. Qed.

Lemma startsWith_drop (p s : string) :
  Str.startsWith p s = true ->
  s = p ++ drop (String.length p) s /\ (String.length p <= String.length s)%nat.
Proof.
  revert s. induction p as [| a p IH]; intros s H; simpl in *.
  - split; [reflexivity | lia].
  - destruct s as [| b s]; [discriminate |].
    apply andb_true_iff in H. destruct H as [Hab Hp].
    apply Ascii.eqb_eq in Hab. subst b.
    destruct (IH s Hp) as [E L]. split; [simpl; congruence | simpl; lia].
Qed.

Lemma split_from_nonempty (sep : string) (s : string) :
  forall skip cur, Str.split_from sep skip cur s <> [].
Proof.
  induction s as [| c r IH]; intros skip cur; simpl.
  - destruct skip; discriminate.
  - destruct skip; [| apply IH].
    destruct (Str.startsWith sep (String c r)); [discriminate | apply IH].
Qed.

Lemma join_cons (sep x : string) (l : list string) :
  l <> [] -> join sep (x :: l) = x ++ sep ++ join sep l.
Proof. destruct l; [congruence | reflexivity]. Qed.

(** Joining the pieces with the separator gives the text back. *)
Lemma join_split_from (sep : string) :
  sep <> "" ->
  forall s skip cur,
    (skip <= String.length s)%nat ->
    join sep (Str.split_from sep skip cur s) = cur ++ drop skip s.
Proof.
  intros Hsep. induction s as [| c r IH]; intros skip cur Hlen; simpl in *.
  - destruct skip; [simpl; rewrite append_empty_r; reflexivity | lia].
  - destruct skip as [| k].
    + destruct (Str.startsWith sep (String c r)) eqn:E.
      * rewrite join_cons by apply split_from_nonempty.
        destruct sep as [| a sep']; [congruence |].
        simpl in E. apply andb_true_iff in E. destruct E as [Hac Hp].
        apply Ascii.eqb_eq in Hac. subst a.
        destruct (startsWith_drop _ _ Hp) as [Er Lr].
        replace (String.length (String c sep') - 1)%nat with (String.length sep')
          by (simpl; lia).
        rewrite IH by exact Lr. simpl. rewrite <- Er. reflexivity.
      * rewrite IH by lia. simpl. rewrite append_assoc. reflexivity.
    + apply IH. lia.
Qed.

Lemma join_split (sep s : string) : sep <> "" -> join sep (Str.split sep s) = s.
Proof.
  intros H. unfold Str.split. rewrite (join_split_from sep H) by lia. reflexivity.
Qed.

Lemma slice0_length {A} (n : nat) (l : list A) :
  (List.length (Arr.slice0 n l) = Nat.min n (List.length l))%nat.
Proof. unfold Arr.slice0. apply length_firstn. Qed.

Lemma length_append (a b : string) :
  String.length (a ++ b) = (String.length a + String.length b)%nat.
Proof. induction a; simpl; congruence. Qed.

(** Two ways of cutting one text that cut at the same place are the same. *)
Lemma append_same_length (a b c d : string) :
  a ++ b = c ++ d -> String.length a = String.length c -> a = c /\ b = d.
Proof.
  revert c. induction a as [| x a IH]; intros [| y c] E L; simpl in *;
    try discriminate; [auto |].
  injection E as -> E. injection L as L.
  destruct (IH c E L) as [-> ->]. auto.
Qed.

(** A text begins with [p] exactly when the model's test says so. *)
Lemma startsWith_prefix (p s : string) :
  Str.startsWith p s = true <-> exists z, s = p ++ z.
Proof.
  split.
  - intros H. exists (drop (String.length p) s). apply (startsWith_drop p s H).
  - intros [z ->]. induction p as [| a p IH]; simpl; [reflexivity |].
    rewrite Ascii.eqb_refl. exact IH.
Qed.

(** Skipping bytes while splitting is splitting what is left. *)
Lemma split_from_skip (sep : string) (s : string) :
  forall skip cur,
    Str.split_from sep skip cur s = Str.split_from sep 0 cur (drop skip s).
Proof.
  induction s as [| c r IH]; intros [| k] cur; try reflexivity.
  simpl. apply IH.
Qed.

(** The model cuts at the first occurrence of the separator, and goes on
    after it. *)
Lemma split_from_split_on (sep : string) :
  sep <> "" ->
  forall n s cur,
    (String.length s <= n)%nat ->
    (forall x' y', cur ++ s = x' ++ sep ++ y' ->
                   (String.length cur <= String.length x')%nat) ->
    split_on sep (cur ++ s) (Str.split_from sep 0 cur s).
Proof.
  intros Hsep. induction n as [| n IH]; intros s cur Hn Hleft.
  - destruct s as [| c r]; [| simpl in Hn; lia].
    simpl. rewrite append_empty_r in *. apply split_whole. intros x y E.
    specialize (Hleft x y E). rewrite E, !length_append in Hleft.
    destruct sep; [congruence | simpl in Hleft; lia].
  - destruct s as [| c r].
    + simpl. rewrite append_empty_r in *. apply split_whole. intros x y E.
      specialize (Hleft x y E). rewrite E, !length_append in Hleft.
      destruct sep; [congruence | simpl in Hleft; lia].
    + cbn [Str.split_from]. destruct (Str.startsWith sep (String c r)) eqn:E.
      * destruct (startsWith_drop _ _ E) as [Es Ls].
        rewrite split_from_skip.
        replace (drop (String.length sep - 1) r)
          with (drop (String.length sep) (String c r))
          by (destruct sep; [congruence | simpl; rewrite Nat.sub_0_r; reflexivity]).
        set (z := drop (String.length sep) (String c r)) in *.
        rewrite Es. apply split_first.
        -- rewrite <- Es. exact Hleft.
        -- apply (IH z ""); [| intros; simpl; lia].
           assert (String.length (String c r) = String.length sep + String.length z)%nat
             by (rewrite Es at 1; apply length_append).
           destruct sep; [congruence | simpl in *; lia].
      * replace (cur ++ String c r) with ((cur ++ String c "") ++ r)
          by (rewrite append_assoc; reflexivity).
        apply IH; [simpl in Hn; lia |].
        intros x' y' E'. rewrite append_assoc in E'. cbn [append] in E'.
        pose proof (Hleft x' y' E') as L. rewrite length_append. cbn [String.length].
        destruct (Nat.eq_dec (String.length cur) (String.length x')) as [Q | Q]; [| lia].
        destruct (append_same_length _ _ _ _ E' Q) as [_ Hs].
        assert (T : Str.startsWith sep (String c r) = true)
          by (apply startsWith_prefix; eauto).
        congruence.
Qed.

Lemma split_split_on (sep s : string) :
  sep <> "" -> split_on sep s (Str.split sep s).
Proof.
  intros H. unfold Str.split.
  apply (split_from_split_on sep H (String.length s) s ""); [lia |].
  intros; simpl; lia.
Qed.

(** A text is split on a separator in one way only. *)
Lemma split_on_unique (sep s : string) (l : list string) :
  split_on sep s l -> forall l', split_on sep s l' -> l = l'.
Proof.
  induction 1 as [s Hno | x rest l Hleft Hrest IH]; intros l' H'.
  - inversion H' as [s' Hno' | x' rest' l'' Hleft' Hrest' E]; [reflexivity |].
    exfalso. apply (Hno x' rest'). auto.
  - remember (x ++ sep ++ rest) as t eqn:Et.
    destruct H' as [s' Hno' | x' rest' l'' Hleft' Hrest'].
    + exfalso. apply (Hno' x rest). exact Et.
    + pose proof (Hleft x' rest' eq_refl) as L1.
      pose proof (Hleft' x rest Et) as L2.
      destruct (append_same_length _ _ _ _ Et (Nat.le_antisymm _ _ L2 L1)) as [-> E2].
      destruct (append_same_length _ _ _ _ E2 eq_refl) as [_ ->].
      f_equal. apply IH. exact Hrest'.
Qed.

End StrFacts.

(** * The record built for a row *)

Section RiskFields.
Variables (row : Cohort.t) (outcome : ai_outcome).




Lemma risk_sentiment :
  sentiment (risk_of row outcome) = fst (after_try outcome (score_before_ai row)).
Proof. unfold risk_of. destruct (after_try _ _). reflexivity. Qed.

Lemma risk_severity_score :
  severity_score (risk_of row outcome) =
  Num.Math_round
    (trend_boost (trend_of (velocity_of row))
       (snd (after_try outcome (score_before_ai row)))).
Proof. unfold risk_of. destruct (after_try _ _). reflexivity. Qed.

Lemma risk_trend : trend (risk_of row outcome) = trend_of (velocity_of row).
Proof. unfold risk_of. destruct (after_try _ _). reflexivity. Qed.

Lemma risk_velocity :
  velocity (risk_of row outcome) =
  (Num.Math_round (velocity_of row * 10) / 10)%float.
Proof. unfold risk_of. destruct (after_try _ _). reflexivity. Qed.

Lemma risk_sample_feedback :
  sample_feedback (risk_of row outcome) =
  Arr.slice0 3 (Str.split " ||| " (Cohort.samples row)).
Proof. unfold risk_of. destruct (after_try _ _). reflexivity. Qed.
End RiskFields.

(** C10. The [sample_feedback] of a cohort's record is the first three
    pieces, in order, of its sample string split on the delimiter " ||| "
    (all of them when there are fewer), so it holds at most three texts. The
    pieces are the texts between the occurrences of the delimiter, each
    occurrence being the first one after the piece before it. *)
Theorem sample_feedback_first_three (row : Cohort.t) (outcome : ai_outcome) :
  exists pieces : list string,
    split_on " ||| " (Cohort.samples row) pieces /\
    (forall l, split_on " ||| " (Cohort.samples row) l -> l = pieces) /\
    sample_feedback (risk_of row outcome) = firstn 3 pieces /\
    List.length (sample_feedback (risk_of row outcome))
      = Nat.min 3 (List.length pieces) /\
    (List.length (sample_feedback (risk_of row outcome)) <= 3)%nat /\
    join " ||| " pieces = Cohort.samples row.
Proof.
  exists (Str.split " ||| " (Cohort.samples row)).
  assert (S : split_on " ||| " (Cohort.samples row)
                (Str.split " ||| " (Cohort.samples row)))
    by (apply StrFacts.split_split_on; discriminate).
  rewrite risk_sample_feedback.
  split; [exact S |].
  split; [intros l Hl; apply (StrFacts.split_on_unique _ _ _ Hl _ S) |].
  split; [reflexivity |].
  split; [apply StrFacts.slice0_length |].
  split; [rewrite StrFacts.slice0_length; apply Nat.le_min_l |].
  apply StrFacts.join_split. discriminate.
Qed.

(** * The trend analyzer *)

Lemma trend_of_cases (v : float) :
  (trend_of v = "accelerating" <-> Num.gt v 5 = true) /\
  (trend_of v = "rising" <-> Num.gt v 5 = false /\ Num.gt v 2 = true) /\
  (trend_of v = "stable" <-> Num.gt v 5 = false /\ Num.gt v 2 = false).
Proof.
  unfold trend_of.
  destruct (Num.gt v 5), (Num.gt v 2);
    (split; [| split]); (split; [intros E | intros E]);
    try discriminate E; try reflexivity; try (split; reflexivity);
    destruct E; discriminate.
Qed.

(** * The classifier boundary *)

Lemma after_try_rejected (score : float) :
  after_try AiRejects score = (neutral, score).
Proof. reflexivity. Qed.

Lemma after_try_unparsed (text m : string) (score : float) :
  Str.match_braces text = Some m -> Json.JSON_parse m = None ->
  after_try (AiResponds text) score = (neutral, score).
Proof.
  intros Hm Hp. unfold after_try, assigned_sentiment. rewrite Hm, Hp. reflexivity.
Qed.

Lemma after_try_keywords (text : string) (score : float) :
  Str.match_braces text = None ->
  after_try (AiResponds text) score =
  (keyword_sentiment text, sentiment_boost (keyword_sentiment text) score).
Proof.
  intros Hm. unfold after_try, assigned_sentiment. rewrite Hm. reflexivity.
Qed.

(** An iteration of the loop never throws: what the classifier does is
    contained by the [try]. *)
Lemma analyze_row_ok (env : Env) (call : nat) (row : Cohort.t) (w : World) :
  fst (analyze_row env call row w) =
  Ok (risk_of row (AI env call (content_for row))).
Proof.
  unfold analyze_row, ai_run, bind, emit, ret. simpl.
  destruct (assigned_sentiment _); reflexivity.
Qed.

(** C4, as the code has it. When the response holds a brace-delimited span
    that is not valid JSON, the parse error is caught: the sentiment stays
    neutral, the score gets no sentiment multiplier, and the iteration
    returns its record. The keyword scan decides the sentiment only for a
    response without such a span. *)
Theorem malformed_json_is_neutral (row : Cohort.t) (text m : string) :
  Str.match_braces text = Some m ->
  Json.JSON_parse m = None ->
  let r := risk_of row (AiResponds text) in
  sentiment r = Json.JString "neutral" /\
  severity_score r =
    Num.Math_round (trend_boost (trend_of (velocity_of row)) (score_before_ai row)) /\
  (forall env call w,
     AI env call (content_for row) = AiResponds text ->
     fst (analyze_row env call row w) = Ok r) /\
  (forall text', Str.match_braces text' = None ->
     sentiment (risk_of row (AiResponds text')) = Spec.keyword_fallback text').
Proof.
  intros Hm Hp. cbv zeta.
  rewrite risk_sentiment, risk_severity_score, (after_try_unparsed _ _ _ Hm Hp).
  repeat split.
  - intros env call w HAI. rewrite analyze_row_ok, HAI. reflexivity.
  - intros text' Hn. rewrite risk_sentiment, (after_try_keywords _ _ Hn). reflexivity.
Qed.

Lemma malformed_json_is_neutral_witness :
  sentiment (risk_of Sample.misc (AiResponds Sample.malformed)) = Json.JString "neutral".
Proof.
  apply (malformed_json_is_neutral Sample.misc Sample.malformed Sample.malformed);
    vm_compute; reflexivity.
Defined.

(** C4 fails as stated: the response [{sentiment: critical}] holds a span
    that does not parse and contains the keyword, and the sentiment is
    neutral, not what the keyword scan gives. *)
Lemma malformed_json_not_scanned :
  Str.match_braces Sample.malformed = Some Sample.malformed /\
  Json.JSON_parse Sample.malformed = None /\
  Spec.keyword_fallback Sample.malformed = Json.JString "critical" /\
  sentiment (risk_of Sample.misc (AiResponds Sample.malformed))
    <> Spec.keyword_fallback Sample.malformed.
Proof. vm_compute. repeat split; discriminate. Qed.

(** * One invocation *)

Lemma analyze_row_run (env : Env) (call : nat) (row : Cohort.t) (w : World) :
  analyze_row env call row w =
  (Ok (risk_of row (AI env call (content_for row))),
   {| cache := cache w;
      events := events w ++ loop_events env call [row] |}).
Proof.
  unfold analyze_row, ai_run, bind, emit, ret. simpl.
  destruct (assigned_sentiment _); simpl; rewrite ?app_nil_r, <- ?app_assoc;
    reflexivity.
Qed.

(** The loop returns the records of [risks_from], never throws and leaves
    the cache alone. *)
Lemma analyze_rows_run (env : Env) (rows : list Cohort.t) :
  forall call w,
    analyze_rows env call rows w =
    (Ok (risks_from env call rows),
     {| cache := cache w; events := events w ++ loop_events env call rows |}).
Proof.
  induction rows as [| row rest IH]; intros call w; simpl.
  - unfold ret. rewrite app_nil_r. destruct w; reflexivity.
  - unfold bind at 1. rewrite analyze_row_run.
    unfold bind at 1. rewrite IH. unfold ret. simpl.
    rewrite app_nil_r, <- !app_assoc. reflexivity.
Qed.

(** What an invocation returns, case by case. *)
Definition returned (env : Env) : result Analysis :=
  let compute (put_fails : bool) :=
    match DB env with
    | None => Throw StoreError
    | Some rows => if put_fails then Throw CacheWriteError else Ok (fresh env rows)
    end in
  match CACHE env with
  | None => compute false
  | Some ns =>
      if get_fails ns then Throw CacheReadError
      else
        match Obj.own (entries ns) cacheKey with
        | Some (payload, _) => Ok (with_cached_true payload)
        | None => compute (put_fails ns)
        end
  end.

Lemma invoke_returned (env : Env) : fst (invoke env) = returned env.
Proof.
  unfold invoke, returned, analyzeSeverity, cache_get, cache_put, db_all,
    get_cache, set_cache, bind, emit, throw, ret, fresh.
  simpl. destruct (CACHE env) as [ns |]; simpl.
  - destruct (get_fails ns); simpl; [reflexivity |].
    destruct (Obj.own (entries ns) cacheKey) as [[payload ttl] |]; simpl;
      [reflexivity |].
    destruct (DB env) as [rows |]; simpl; [| reflexivity].
    rewrite analyze_rows_run. simpl.
    destruct (put_fails ns); reflexivity.
  - destruct (DB env) as [rows |]; simpl; [| reflexivity].
    rewrite analyze_rows_run. reflexivity.
Qed.

(** * Classifier failures *)

Lemma sentiment_boost_neutral (score : float) : sentiment_boost neutral score = score.
Proof. reflexivity. Qed.



(** * The sentiment that reaches the output *)

Lemma keyword_sentiment_values (text : string) :
  keyword_sentiment text = Json.JString "critical" \/
  keyword_sentiment text = Json.JString "negative" \/
  keyword_sentiment text = Json.JString "neutral".
Proof.
  unfold keyword_sentiment.
  destruct (Str.includes "critical" _); [auto |].
  destruct (Str.includes "negative" _); auto.
Qed.

(** C5, as the code has it. The sentiment of a record is critical, negative
    or neutral, or else it is the value of the [sentiment] member of the
    JSON object found in the response, whatever that value is, provided it
    is truthy; a member that is absent or falsy gives neutral. *)
Theorem sentiment_values (row : Cohort.t) (outcome : ai_outcome) :
  let s := sentiment (risk_of row outcome) in
  (s = Json.JString "critical" \/ s = Json.JString "negative" \/
   s = Json.JString "neutral" \/
   exists text m members,
     outcome = AiResponds text /\ Str.match_braces text = Some m /\
     Json.JSON_parse m = Some (Json.JObject members) /\
     Json.member "sentiment" members = Some s /\ Json.truthy s = true) /\
  (forall text m members,
     outcome = AiResponds text -> Str.match_braces text = Some m ->
     Json.JSON_parse m = Some (Json.JObject members) ->
     match Json.member "sentiment" members with
     | Some v => if Json.truthy v then s = v else s = Json.JString "neutral"
     | None => s = Json.JString "neutral"
     end).
Proof.
  cbv zeta. rewrite risk_sentiment. unfold after_try, assigned_sentiment. split.
  - destruct outcome as [| text]; simpl; [auto |].
    destruct (Str.match_braces text) as [m |] eqn:Hm; simpl.
    + destruct (Json.JSON_parse m) as [parsed |] eqn:Hp; simpl; [| auto].
      destruct parsed as [| b | neg d e | t | items | members]; simpl; auto.
      destruct (Json.member "sentiment" members) as [v |] eqn:Hv; [| auto].
      destruct (Json.truthy v) eqn:Ht; [| auto].
      do 3 right. exists text, m, members. auto.
    + destruct (keyword_sentiment_values text) as [H | [H | H]]; rewrite H; auto.
  - intros text m members -> Hm Hp. rewrite Hm, Hp. simpl.
    destruct (Json.member "sentiment" members) as [v |]; [| reflexivity].
    destruct (Json.truthy v); reflexivity.
Qed.

(** C5 fails as stated: the response [{"sentiment": "mixed", "confidence": 90}]
    is well-formed JSON with an unrecognized sentiment, and the record
    carries "mixed". *)
Lemma unrecognized_sentiment_kept :
  Json.JSON_parse (Sample.reply "mixed") =
    Some (Json.JObject [("sentiment", Json.JString "mixed");
                        ("confidence", Json.JNumber false 90 0)]) /\
  sentiment (risk_of Sample.misc (AiResponds (Sample.reply "mixed")))
    = Json.JString "mixed" /\
  ~ Spec.is_sentiment (sentiment (risk_of Sample.misc (AiResponds (Sample.reply "mixed")))).
Proof.
  split; [vm_compute; reflexivity |]. split; [vm_compute; reflexivity |].
  assert (E : sentiment (risk_of Sample.misc (AiResponds (Sample.reply "mixed")))
              = Json.JString "mixed") by (vm_compute; reflexivity).
  rewrite E. unfold Spec.is_sentiment. intros [H | [H | [H | H]]]; discriminate H.
Qed.

(** * The cache *)

Lemma own_written (ns : KVNamespace) (key : string) (value : Analysis) (ttl : Z) :
  Obj.own (entries (written ns key value ttl)) key = Some (value, ttl).
Proof. simpl. rewrite String.eqb_refl. reflexivity. Qed.

(** C7. With the cache bound and reading, an invocation first reads the key
    [analysis:latest]. On a hit it returns the payload with [cached] set to
    true and every other field as stored, and does nothing else: no query,
    no classifier call, no write. On a miss it computes the analysis, writes
    it under the same key with a TTL of 300 seconds, and returns it with
    [cached] false. *)
Theorem cache_hit_and_miss (env : Env) (ns : KVNamespace) :
  CACHE env = Some ns ->
  get_fails ns = false ->
  match Obj.own (entries ns) "analysis:latest" with
  | Some (payload, _) =>
      invoke env =
        (Ok (with_cached_true payload),
         {| cache := Some ns; events := [CacheGet "analysis:latest"] |}) /\
      cached (with_cached_true payload) = true /\
      (analysis_time (with_cached_true payload), total_risks (with_cached_true payload),
       critical_count (with_cached_true payload), top_risks (with_cached_true payload),
       all_risks (with_cached_true payload))
      = (analysis_time payload, total_risks payload, critical_count payload,
         top_risks payload, all_risks payload)
  | None =>
      forall rows,
        DB env = Some rows ->
        put_fails ns = false ->
        invoke env =
          (Ok (fresh env rows),
           {| cache := Some (written ns "analysis:latest" (fresh env rows) 300);
              events := [CacheGet "analysis:latest"; DbQuery]
                        ++ loop_events env 0 rows
                        ++ [CachePut "analysis:latest" (fresh env rows) 300] |}) /\
        cached (fresh env rows) = false /\
        Obj.own (entries (written ns "analysis:latest" (fresh env rows) 300))
          "analysis:latest" = Some (fresh env rows, 300%Z)
  end.
Proof.
  intros Hkv Hget.
  unfold invoke, analyzeSeverity, cache_get, cache_put, db_all,
    get_cache, set_cache, bind, emit, throw, ret.
  rewrite Hkv. simpl. rewrite Hget. simpl.
  change (Obj.own (entries ns) cacheKey) with (Obj.own (entries ns) "analysis:latest").
  destruct (Obj.own (entries ns) "analysis:latest") as [[payload ttl] |]; simpl.
  - repeat split.
  - intros rows Hdb Hput. rewrite Hdb. simpl. rewrite analyze_rows_run. simpl.
    rewrite Hput. simpl. repeat split.
Qed.

Lemma cache_hit_and_miss_witness :
  let env := Sample.env_of [Sample.perf; Sample.misc] (fun _ _ => Sample.says_critical)
               (Some Sample.healthy_cache) in
  fst (invoke env) = Ok (fresh env [Sample.perf; Sample.misc]).
Proof.
  intros env.
  destruct (cache_hit_and_miss env Sample.healthy_cache eq_refl eq_refl
              [Sample.perf; Sample.misc] eq_refl eq_refl) as [E _].
  rewrite E. reflexivity.
Defined.




(** * A category named like a member of [Object.prototype] *)

(** C1 on the cohort (constructor, enterprise, 3 complaints, half a day
    old) with a critical classifier answer: the specification's chain gives
    round(3*10 * 3.0 * 1.0 * 1.5 * 1.4 * 1.3) = 246, the category being
    unlisted; the code finds [Object.prototype.constructor] under that
    name, multiplies by it, and the score is NaN. *)
Theorem inherited_category_scores_nan :
  let r := risk_of (Sample.ctor "enterprise") Sample.says_critical in
  Obj.get criticalCategories "constructor" = Obj.FromPrototype "constructor" /\
  categoryMultiplier "constructor" = nan /\
  Spec.catMult "constructor" = 1%float /\
  sentiment r = Json.JString "critical" /\
  trend r = "accelerating" /\
  severity_score r = nan /\
  Spec.score 3 "enterprise" "constructor" 0.5 (sentiment r) (trend r) = 246%float.
Proof. vm_compute. repeat split. Qed.

(** C9 on the two cohorts (constructor, 3 complaints, half a day old) that
    differ in the user type only: both scores are NaN, so the enterprise
    score is not greater than or equal to the other, while the
    specification's chain gives 246 against 82. *)
Theorem inherited_category_breaks_dominance :
  let e := risk_of (Sample.ctor "enterprise") Sample.says_critical in
  let d := risk_of (Sample.ctor "developer") Sample.says_critical in
  severity_score e = nan /\ severity_score d = nan /\
  Num.ge (severity_score e) (severity_score d) = false /\
  Num.ge (Spec.score 3 "enterprise" "constructor" 0.5 (sentiment e) (trend e))
         (Spec.score 3 "developer" "constructor" 0.5 (sentiment d) (trend d)) = true.
Proof. vm_compute. repeat split. Qed.

(** No list of two or more records that holds a NaN score is in descending
    order, however it is arranged. *)
Lemma nan_score_never_descending (l : list RiskAnalysis) (x : RiskAnalysis) :
  In x l -> is_nan (severity_score x) = true -> (2 <= List.length l)%nat ->
  ~ Spec.descending l.
Proof.
  unfold Spec.descending, Num.ge. intros Hin Hnan Hlen Hsorted.
  induction Hsorted as [| a l' Hs IH Hall].
  - inversion Hin.
  - rewrite Forall_forall in Hall. destruct Hin as [-> | Hin].
    + destruct l' as [| y l'']; [simpl in Hlen; lia |].
      specialize (Hall y (or_introl eq_refl)).
      rewrite (NumFacts.leb_nan_r _ _ Hnan) in Hall. discriminate.
    + specialize (Hall x Hin).
      rewrite (NumFacts.leb_nan_l _ _ Hnan) in Hall. discriminate.
Qed.

(** C2 on three cohorts, the second with the category [constructor]: the
    scores come out as 14, NaN, 491 in that order, which is not descending,
    and no rearrangement of these records is. *)
Theorem inherited_category_breaks_order :
  let env := Sample.env_of [Sample.misc; Sample.ctor "enterprise"; Sample.perf]
               (fun _ _ => Sample.says_critical) None in
  exists analysis,
    fst (invoke env) = Ok analysis /\
    map severity_score (all_risks analysis) = [14; nan; 491]%float /\
    ~ Spec.descending (all_risks analysis) /\
    forall l, Permutation l (all_risks analysis) -> ~ Spec.descending l.
Proof.
  cbv zeta. rewrite invoke_returned. eexists. split; [reflexivity |].
  split; [vm_compute; reflexivity |].
  assert (P : forall l,
             Permutation l
               (all_risks
                  (fresh (Sample.env_of [Sample.misc; Sample.ctor "enterprise"; Sample.perf]
                            (fun _ _ => Sample.says_critical) None)
                     [Sample.misc; Sample.ctor "enterprise"; Sample.perf])) ->
             ~ Spec.descending l).
  { intros l HP.
    apply (nan_score_never_descending l
             (risk_of (Sample.ctor "enterprise") Sample.says_critical)).
    - apply (Permutation_in _ (Permutation_sym HP)). vm_compute. auto.
    - vm_compute. reflexivity.
    - rewrite (Permutation_length HP). vm_compute. lia. }
  split; [apply P, Permutation_refl | exact P].
Qed.

(** * Binary64 arithmetic, from its specification *)

Module FloatFacts.

Import NumFacts.
Local Open Scope float_scope.

Lemma valid_finite (s : bool) (m : positive) (e : Z) :
  valid_binary (S754_finite s m e) = true ->
  fexp prec emax (Zpos (digits2_pos m) + e) = e /\ (e <= emax - prec)%Z.
Proof.
  unfold valid_binary, bounded, canonical_mantissa. intros H.
  apply andb_true_iff in H. destruct H as [H1 H2].
  apply Z.eqb_eq in H1. apply Z.leb_le in H2. auto.
Qed.

Lemma SFmul_one (x : spec_float) :
  valid_binary x = true ->
  SF64mul x (S754_finite false 4503599627370496 (-52)) = x.
Proof.
  intros Hv. unfold SF64mul, SFmul.
  destruct x as [s | s | | s m e]; try (destruct s; reflexivity); try reflexivity.
  destruct (valid_finite s m e Hv) as [Hc Hb].
  rewrite xorb_false_r.
  rewrite Pos.mul_comm.
  cbn [Pos.mul].
  unfold binary_round_aux.
  unfold shr_fexp at 1.
  cbn [Zdigits2 digits2_pos].
  rewrite !Pos2Z.inj_succ.
  match goal with
  | |- context [fexp prec emax ?a] =>
      replace a with (Z.pos (digits2_pos m) + e)%Z by lia
  end.
  rewrite Hc.
  replace (e - (e + -52))%Z with 52%Z by lia.
  cbn [shr shr_record_of_loc iter_pos shr_1 orb].
  cbn [shr_m loc_of_shr_record round_nearest_even].
  replace (e + -52 + 52)%Z with e by lia.
  unfold shr_fexp. cbn [Zdigits2]. rewrite Hc, Z.sub_diag.
  cbn [shr shr_record_of_loc shr_m].
  apply Z.leb_le in Hb. rewrite Hb. reflexivity.
Qed.

(** Multiplying by 1.0 changes nothing, NaN, infinities and signed zeros
    included. *)
Lemma mul_one_r (x : float) : x * 1 = x.
Proof.
  apply Prim2SF_inj. rewrite mul_spec.
  apply SFmul_one, Prim2SF_valid.
Qed.



Lemma shr_1_nonneg (r : shr_record) : (0 <= shr_m r)%Z -> (0 <= shr_m (shr_1 r))%Z.
Proof.
  destruct r as [m b c]. simpl shr_m at 1. intros H.
  destruct m as [| p | p]; [simpl; lia | | lia].
  destruct p; simpl; lia.
Qed.

Lemma iter_pos_invariant {A} (P : A -> Prop) (f : A -> A) :
  (forall a, P a -> P (f a)) -> forall p a, P a -> P (iter_pos f p a).
Proof.
  intros Hf. induction p as [p IH | p IH |]; intros a Ha; simpl; auto.
Qed.

Lemma shr_nonneg (r : shr_record) (e n : Z) :
  (0 <= shr_m r)%Z -> (0 <= shr_m (fst (shr r e n)))%Z.
Proof.
  intros H. unfold shr. destruct n; simpl; auto.
  apply (iter_pos_invariant (fun r => 0 <= shr_m r)%Z); auto using shr_1_nonneg.
Qed.

Lemma shr_record_of_loc_m (m : Z) (l : location) : shr_m (shr_record_of_loc m l) = m.
Proof. destruct l as [| []]; reflexivity. Qed.

Lemma shr_fexp_nonneg (m e : Z) (l : location) :
  (0 <= m)%Z -> (0 <= shr_m (fst (shr_fexp prec emax m e l)))%Z.
Proof.
  intros H. unfold shr_fexp. apply shr_nonneg. rewrite shr_record_of_loc_m. exact H.
Qed.

Lemma round_nearest_even_nonneg (m : Z) (l : location) :
  (0 <= m)%Z -> (0 <= round_nearest_even m l)%Z.
Proof.
  intros H. unfold round_nearest_even.
  destruct l as [| []]; try destruct (Z.even m); lia.
Qed.

(** Rounding a mantissa that is not negative gives a number of the sign
    asked for. *)
Lemma binary_round_aux_signed (s : bool) (m e : Z) (l : location) :
  (0 <= m)%Z -> signed s (binary_round_aux prec emax s m e l).
Proof.
  intros H. unfold binary_round_aux.
  pose proof (shr_fexp_nonneg m e l H) as H1.
  destruct (shr_fexp prec emax m e l) as [mrs' e']. simpl fst in H1.
  pose proof (shr_fexp_nonneg _ e' loc_Exact
                (round_nearest_even_nonneg _ (loc_of_shr_record mrs') H1)) as H2.
  destruct (shr_fexp prec emax _ e' loc_Exact) as [mrs'' e'']. simpl fst in H2.
  destruct (shr_m mrs'') as [| p | p]; [reflexivity | | lia].
  destruct (e'' <=? emax - prec)%Z; reflexivity.
Qed.

Lemma binary_round_signed (s : bool) (m : positive) (e : Z) :
  signed s (binary_round prec emax s m e).
Proof.
  unfold binary_round. destruct (shl_align _ _ _) as [mz ez].
  apply binary_round_aux_signed. lia.
Qed.

Lemma binary_normalize_not_nan (m e : Z) (sz : bool) :
  sf_is_nan (binary_normalize prec emax m e sz) = false.
Proof.
  destruct m as [| p | p]; simpl; [reflexivity | |];
    match goal with
    | |- context [binary_round prec emax ?s p e] =>
        pose proof (binary_round_signed s p e) as H;
        destruct (binary_round prec emax s p e); simpl in *; tauto
    end.
Qed.

Lemma binary_normalize_signed (m e : Z) :
  (0 <= m)%Z -> signed false (binary_normalize prec emax m e false).
Proof.
  intros H. destruct m as [| p | p]; [reflexivity | apply binary_round_signed | lia].
Qed.

(** A product is NaN only if a factor is NaN, or one is zero and the other
    infinite. *)
Lemma SFmul_finite_not_nan (x : spec_float) (s : bool) (m : positive) (e : Z) :
  sf_is_nan x = false ->
  sf_is_nan (SF64mul x (S754_finite s m e)) = false.
Proof.
  intros Hx. unfold SF64mul, SFmul.
  destruct x as [sx | sx | | sx mx ex]; try reflexivity; try discriminate.
  pose proof (binary_round_aux_signed (xorb sx s) (Z.pos (mx * m)) (ex + e) loc_Exact
                ltac:(lia)) as H.
  destruct (binary_round_aux _ _ _ _ _ _); simpl in *; tauto.
Qed.

Lemma SFmul_signed (x : spec_float) (m : positive) (e : Z) :
  signed false x -> signed false (SF64mul x (S754_finite false m e)).
Proof.
  intros Hx. unfold SF64mul, SFmul.
  destruct x as [sx | sx | | sx mx ex]; simpl in Hx; subst; try reflexivity; try tauto.
  apply binary_round_aux_signed. lia.
Qed.


Lemma SFldexp_signed (s : bool) (f : spec_float) (e : Z) :
  signed s f -> signed s (SFldexp prec emax f e).
Proof.
  destruct f as [s' | s' | | s' m' e']; simpl; intros H; subst; try reflexivity; try tauto.
  apply binary_round_signed.
Qed.

Lemma SFopp_signed (s : bool) (f : spec_float) :
  signed s f -> signed (negb s) (SFopp f).
Proof. destruct f; simpl; intros H; subst; tauto. Qed.

(** Converting back a number gives a number of the same sign. *)
Lemma SF2Prim_signed (s : bool) (r : spec_float) :
  signed s r -> signed s (Prim2SF (SF2Prim r)).
Proof.
  destruct r as [s' | s' | | s' m e]; simpl signed at 1; intros H; subst;
    try tauto; try (destruct s; reflexivity).
  unfold SF2Prim.
  assert (F : signed false (Prim2SF (Z.ldexp (of_uint63 (Uint63.of_Z (Z.pos m))) e))).
  { rewrite Z_ldexp_spec. apply SFldexp_signed. rewrite of_uint63_spec.
    apply binary_normalize_signed. apply Uint63.to_Z_bounded. }
  destruct s; [| exact F].
  rewrite opp_spec. apply (SFopp_signed false), F.
Qed.

Lemma signed_not_nan (s : bool) (r : spec_float) : signed s r -> sf_is_nan r = false.
Proof. destruct r; simpl; tauto. Qed.

Lemma of_Z_signed (z : Z) : (0 <= z)%Z -> signed false (Prim2SF (Num.of_Z z)).
Proof.
  intros H. apply SF2Prim_signed, binary_normalize_signed, H.
Qed.

Lemma of_Z_not_nan (z : Z) : sf_is_nan (Prim2SF (Num.of_Z z)) = false.
Proof.
  unfold Num.of_Z. pose proof (binary_normalize_not_nan z 0 false) as H.
  destruct (binary_normalize prec emax z 0 false) as [s | s | | s m e] eqn:E;
    try discriminate.
  - apply (signed_not_nan s), SF2Prim_signed. reflexivity.
  - apply (signed_not_nan s), SF2Prim_signed. reflexivity.
  - apply (signed_not_nan s), SF2Prim_signed. reflexivity.
Qed.

Lemma digits2_size (m : positive) : digits2_pos m = Pos.size m.
Proof. induction m; simpl; congruence. Qed.

(** [2^(d-1) <= m < 2^d] for the number [d] of binary digits of [m]. *)
Lemma digits2_bounds (m : positive) :
  (2 ^ (Z.pos (digits2_pos m) - 1) <= Z.pos m < 2 ^ Z.pos (digits2_pos m))%Z.
Proof.
  rewrite digits2_size. split.
  - pose proof (Pos.size_le m) as H.
    assert (H' : (2 ^ Z.pos (Pos.size m) <= 2 * Z.pos m)%Z).
    { change (2 * Z.pos m)%Z with (Z.pos m~0).
      rewrite <- (Pos2Z.inj_pow 2 (Pos.size m)). apply Pos2Z.pos_le_pos, H. }
    replace (Z.pos (Pos.size m)) with (Z.succ (Z.pos (Pos.size m) - 1)) in H' by lia.
    rewrite Z.pow_succ_r in H' by lia. lia.
  - pose proof (Pos.size_gt m) as H.
    rewrite <- (Pos2Z.inj_pow 2 (Pos.size m)). apply Pos2Z.pos_lt_pos, H.
Qed.

Lemma shr_1_div (r : shr_record) :
  (0 <= shr_m r)%Z -> shr_m (shr_1 r) = (shr_m r / 2)%Z.
Proof.
  destruct r as [m b c]. simpl shr_m at 1 2. intros H.
  destruct m as [| p | p]; [reflexivity | | lia].
  destruct p as [p | p |]; cbn [shr_1 shr_m].
  - rewrite Pos2Z.inj_xI. apply Z.div_unique with 1%Z; lia.
  - rewrite Pos2Z.inj_xO. apply Z.div_unique with 0%Z; lia.
  - reflexivity.
Qed.

Lemma iter_shr_1_div (p : positive) :
  forall r, (0 <= shr_m r)%Z ->
            shr_m (iter_pos shr_1 p r) = (shr_m r / 2 ^ Z.pos p)%Z.
Proof.
  assert (N : forall q r, (0 <= shr_m r)%Z -> (0 <= shr_m (iter_pos shr_1 q r))%Z).
  { intros q r. apply (iter_pos_invariant (fun r => 0 <= shr_m r)%Z), shr_1_nonneg. }
  induction p as [p IH | p IH |]; intros r H; cbn [iter_pos].
  - rewrite IH, IH, shr_1_div by auto using shr_1_nonneg.
    assert (P : (0 < 2 ^ Z.pos p)%Z) by (apply Z.pow_pos_nonneg; lia).
    rewrite !Z.div_div by lia. f_equal.
    rewrite (Pos2Z.inj_xI p).
    replace (2 * Z.pos p + 1)%Z with (1 + Z.pos p + Z.pos p)%Z by lia.
    rewrite !Z.pow_add_r by lia. lia.
  - rewrite IH, IH by auto.
    assert (P : (0 < 2 ^ Z.pos p)%Z) by (apply Z.pow_pos_nonneg; lia).
    rewrite !Z.div_div by lia. f_equal.
    rewrite (Pos2Z.inj_xO p).
    replace (2 * Z.pos p)%Z with (Z.pos p + Z.pos p)%Z by lia.
    rewrite !Z.pow_add_r by lia. reflexivity.
  - rewrite shr_1_div by exact H. reflexivity.
Qed.


Lemma fexp_ge_emin (e : Z) : (emin64 <= fexp prec emax e)%Z.
Proof. unfold fexp, emin64, SpecFloat.emin, prec, emax. lia. Qed.

(** Shifting to the working precision keeps a positive mantissa positive. *)
Lemma shr_fexp_pos (m e : Z) (l : location) :
  (0 < m)%Z -> (emin64 <= e)%Z ->
  (0 < shr_m (fst (shr_fexp prec emax m e l)))%Z /\
  (emin64 <= snd (shr_fexp prec emax m e l))%Z.
Proof.
  intros Hm He. unfold shr_fexp, shr.
  destruct m as [| p | p]; try lia. cbn [Zdigits2].
  destruct (fexp prec emax (Z.pos (digits2_pos p) + e) - e)%Z as [| n | n] eqn:En;
    cbn [fst snd]; rewrite ?shr_record_of_loc_m; try (split; lia).
  split.
  - rewrite iter_shr_1_div by (rewrite shr_record_of_loc_m; lia).
    rewrite shr_record_of_loc_m.
    apply Z.div_str_pos. split; [lia |].
    destruct (digits2_bounds p) as [Hlo _].
    apply Z.le_trans with (2 ^ (Z.pos (digits2_pos p) - 1))%Z; [| exact Hlo].
    apply Z.pow_le_mono_r; [lia |].
    unfold fexp, emin64, SpecFloat.emin, prec, emax in *. lia.
  - pose proof (fexp_ge_emin (Z.pos (digits2_pos p) + e)). lia.
Qed.


Lemma round_nearest_even_ge (m : Z) (l : location) : (m <= round_nearest_even m l)%Z.
Proof.
  unfold round_nearest_even. destruct l as [| []]; try destruct (Z.even m); lia.
Qed.

Lemma binary_round_aux_nonzero (s : bool) (m e : Z) (l : location) :
  (0 < m)%Z -> (emin64 <= e)%Z ->
  nonzero_signed s (binary_round_aux prec emax s m e l).
Proof.
  intros Hm He. unfold binary_round_aux.
  destruct (shr_fexp_pos m e l Hm He) as [H1 H1'].
  destruct (shr_fexp prec emax m e l) as [mrs' e']. cbn [fst snd] in H1, H1'.
  pose proof (round_nearest_even_ge (shr_m mrs') (loc_of_shr_record mrs')) as Hr.
  destruct (shr_fexp_pos (round_nearest_even (shr_m mrs') (loc_of_shr_record mrs'))
              e' loc_Exact ltac:(lia) H1') as [H2 _].
  destruct (shr_fexp prec emax _ e' loc_Exact) as [mrs'' e'']. cbn [fst] in H2.
  destruct (shr_m mrs'') as [| p | p]; try lia.
  destruct (e'' <=? emax - prec)%Z; reflexivity.
Qed.

Lemma binary_round_nonzero (s : bool) (m : positive) (e : Z) :
  (emin64 <= e)%Z -> nonzero_signed s (binary_round prec emax s m e).
Proof.
  intros He. unfold binary_round, shl_align.
  pose proof (fexp_ge_emin (Z.pos (digits2_pos m) + e)) as Hf.
  destruct (fexp prec emax (Z.pos (digits2_pos m) + e) - e)%Z eqn:E;
    apply binary_round_aux_nonzero; lia.
Qed.

Lemma iter_xO_value (m d : positive) :
  Z.pos (Pos.iter xO m d) = (Z.pos m * 2 ^ Z.pos d)%Z.
Proof.
  induction d as [| d IH] using Pos.peano_ind.
  - cbn [Pos.iter]. rewrite (Pos2Z.inj_xO m). lia.
  - rewrite Pos.iter_succ, (Pos2Z.inj_xO (Pos.iter xO m d)), IH, Pos2Z.inj_succ,
      Z.pow_succ_r by lia. lia.
Qed.

Lemma shl_align_value (m : positive) (e e' : Z) :
  (e' <= e)%Z ->
  Z.pos (fst (shl_align m e e')) = (Z.pos m * 2 ^ (e - e'))%Z.
Proof.
  intros H. unfold shl_align.
  destruct (e' - e)%Z as [| d | d] eqn:E; cbn [fst]; try lia.
  - replace (e - e')%Z with 0%Z by lia. lia.
  - rewrite iter_xO_value. f_equal. f_equal. lia.
Qed.

(** What validity says of a finite number. *)
Lemma valid_digits (s : bool) (m : positive) (e : Z) :
  valid_binary (S754_finite s m e) = true ->
  (Z.pos (digits2_pos m) <= 53)%Z /\ (emin64 <= e)%Z /\
  ((emin64 < e)%Z -> Z.pos (digits2_pos m) = 53%Z).
Proof.
  unfold valid_binary, bounded, canonical_mantissa. intros H.
  apply andb_true_iff in H. destruct H as [H _]. apply Z.eqb_eq in H.
  unfold fexp, emin64, SpecFloat.emin, prec, emax in *. lia.
Qed.

(** A number with the larger exponent has the larger magnitude. *)
Lemma magnitude_by_exponent (s s' : bool) (m m' : positive) (e e' : Z) :
  valid_binary (S754_finite s m e) = true ->
  valid_binary (S754_finite s' m' e') = true ->
  (e < e')%Z ->
  (Z.pos m < Z.pos m' * 2 ^ (e' - e))%Z.
Proof.
  intros V V' Hlt.
  destruct (valid_digits _ _ _ V) as (D & E & _).
  destruct (valid_digits _ _ _ V') as (_ & _ & D'). specialize (D' ltac:(lia)).
  destruct (digits2_bounds m) as [_ Hm]. destruct (digits2_bounds m') as [Hm' _].
  rewrite D' in Hm'. change (2 ^ (53 - 1))%Z with 4503599627370496%Z in Hm'.
  assert (Hm2 : (Z.pos m < 9007199254740992)%Z).
  { eapply Z.lt_le_trans; [exact Hm |].
    change 9007199254740992%Z with (2 ^ 53)%Z. apply Z.pow_le_mono_r; lia. }
  assert (P : (2 <= 2 ^ (e' - e))%Z).
  { change 2%Z with (2 ^ 1)%Z at 1. apply Z.pow_le_mono_r; lia. }
  nia.
Qed.

(** The order of two valid finite numbers is the order of their signed
    mantissas, once both are written with the smaller exponent. *)
Lemma SFcompare_value (sx sy : bool) (mx my : positive) (ex ey : Z) :
  valid_binary (S754_finite sx mx ex) = true ->
  valid_binary (S754_finite sy my ey) = true ->
  SFcompare (S754_finite sx mx ex) (S754_finite sy my ey) =
  Some (cond_Zopp sx (Z.pos mx * 2 ^ (ex - Z.min ex ey))
        ?= cond_Zopp sy (Z.pos my * 2 ^ (ey - Z.min ex ey)))%Z.
Proof.
  intros Vx Vy. cbn [SFcompare]. f_equal.
  assert (Px : (0 < Z.pos mx * 2 ^ (ex - Z.min ex ey))%Z)
    by (apply Z.mul_pos_pos; [lia | apply Z.pow_pos_nonneg; lia]).
  assert (Py : (0 < Z.pos my * 2 ^ (ey - Z.min ex ey))%Z)
    by (apply Z.mul_pos_pos; [lia | apply Z.pow_pos_nonneg; lia]).
  destruct sx, sy; cbn [cond_Zopp].
  - (* both negative *)
    destruct (Z.compare_spec ex ey) as [E | E | E].
    + subst ey. rewrite Z.min_id, Z.sub_diag, !Z.mul_1_r. cbn [Z.opp Z.compare].
      reflexivity.
    + symmetry. apply Z.compare_gt_iff.
      pose proof (magnitude_by_exponent _ _ _ _ _ _ Vx Vy E).
      rewrite Z.min_l, Z.sub_diag by lia. lia.
    + symmetry. apply Z.compare_lt_iff.
      pose proof (magnitude_by_exponent _ _ _ _ _ _ Vy Vx E).
      rewrite Z.min_r, Z.sub_diag by lia. lia.
  - symmetry. apply Z.compare_lt_iff. lia.
  - symmetry. apply Z.compare_gt_iff. lia.
  - (* both positive *)
    destruct (Z.compare_spec ex ey) as [E | E | E].
    + subst ey. rewrite Z.min_id, Z.sub_diag, !Z.mul_1_r. reflexivity.
    + symmetry. apply Z.compare_lt_iff.
      pose proof (magnitude_by_exponent _ _ _ _ _ _ Vx Vy E).
      rewrite Z.min_l, Z.sub_diag by lia. lia.
    + symmetry. apply Z.compare_gt_iff.
      pose proof (magnitude_by_exponent _ _ _ _ _ _ Vy Vx E).
      rewrite Z.min_r, Z.sub_diag by lia. lia.
Qed.

(** The sign of a normalized integer. *)
Lemma binary_normalize_positive (d e : Z) :
  (emin64 <= e)%Z ->
  SFltb (S754_zero false) (binary_normalize prec emax d e false) = (0 <? d)%Z.
Proof.
  intros He. destruct d as [| p | p]; cbn [binary_normalize]; [reflexivity | |].
  - pose proof (binary_round_nonzero false p e He) as H.
    destruct (binary_round prec emax false p e) as [s | s | | s m' e'];
      cbn in H; subst; try tauto; reflexivity.
  - pose proof (binary_round_signed true p e) as H.
    destruct (binary_round prec emax true p e) as [s | s | | s m' e'];
      cbn in H; subst; try tauto; reflexivity.
Qed.

(** [y - x] is above zero exactly when [x] is below [y]. *)
Lemma SFsub_positive (x y : spec_float) :
  valid_binary x = true -> valid_binary y = true ->
  SFltb (S754_zero false) (SF64sub y x) = SFltb x y.
Proof.
  intros Vx Vy.
  destruct x as [sx | sx | | sx mx ex], y as [sy | sy | | sy my ey];
    try reflexivity;
    try (destruct sx; reflexivity); try (destruct sy; reflexivity);
    try (destruct sx, sy; reflexivity).
  unfold SF64sub, SFsub, SFltb. rewrite (SFcompare_value _ _ _ _ _ _ Vx Vy).
  destruct (valid_digits _ _ _ Vx) as (_ & Ex & _).
  destruct (valid_digits _ _ _ Vy) as (_ & Ey & _).
  fold (SFltb (S754_zero false)
          (binary_normalize prec emax
             (cond_Zopp sy (Z.pos (fst (shl_align my ey (Z.min ey ex)))) -
              cond_Zopp sx (Z.pos (fst (shl_align mx ex (Z.min ey ex)))))
             (Z.min ey ex) false)).
  rewrite binary_normalize_positive by lia.
  rewrite !shl_align_value by lia. rewrite (Z.min_comm ey ex).
  set (a := cond_Zopp sx _). set (b := cond_Zopp sy _).
  destruct (Z.compare_spec a b); destruct (Z.ltb_spec 0 (b - a)); try reflexivity; lia.
Qed.

Lemma sub_positive (x y : float) : (0 <? y - x) = (x <? y).
Proof.
  rewrite !ltb_spec, sub_spec.
  apply SFsub_positive; apply Prim2SF_valid.
Qed.

Lemma SFleb_trans (x y z : spec_float) :
  SFleb x y = true -> SFleb y z = true -> SFleb x z = true.
Proof.
  unfold SFleb.
  destruct x as [sx | sx | | sx mx ex], y as [sy | sy | | sy my ey],
           z as [sz | sz | | sz mz ez];
    cbn [SFcompare]; try discriminate; try reflexivity;
    try (destruct sx; try discriminate; try reflexivity;
         destruct sy; try discriminate; try reflexivity;
         destruct sz; try discriminate; reflexivity);
    try (destruct sx; try discriminate; try reflexivity;
         destruct sz; try discriminate; try reflexivity;
         destruct sy; try discriminate; reflexivity);
    try (destruct sy; try discriminate; try reflexivity;
         destruct sz; try discriminate; try reflexivity;
         destruct sx; try discriminate; reflexivity).
  all: change (Pos.compare_cont Eq) with Pos.compare.
  all: destruct sx, sy, sz; try discriminate; try reflexivity.
  all: destruct (Z.compare_spec ex ey), (Z.compare_spec ey ez), (Z.compare_spec ex ez);
         try discriminate; try reflexivity; try lia; subst.
  all: destruct (Pos.compare_spec mx my), (Pos.compare_spec my mz),
         (Pos.compare_spec mx mz); cbn [CompOpp];
         try discriminate; try reflexivity; lia.
Qed.

End FloatFacts.

(** * Numbers of the source: products, rounding, order *)

Module PrimFacts.

Import NumFacts FloatFacts.
Local Open Scope float_scope.

Lemma mul_nan_l (y : float) : nan * y = nan.
Proof. apply Prim2SF_inj. rewrite mul_spec. reflexivity. Qed.

Lemma mul_nan_r (x : float) : x * nan = nan.
Proof.
  apply Prim2SF_inj. rewrite mul_spec.
  change (Prim2SF nan) with S754_nan. unfold SF64mul, SFmul.
  destruct (Prim2SF x); reflexivity.
Qed.

Lemma not_negative_number (x : float) : not_negative x -> is_nan x = false.
Proof. rewrite is_nan_spec. apply (signed_not_nan false). Qed.

Lemma mul_not_negative (x k : float) :
  not_negative x -> positive_finite k -> not_negative (x * k).
Proof.
  intros Hx (m & e & Hk). unfold not_negative. rewrite mul_spec, Hk.
  apply SFmul_signed, Hx.
Qed.

Lemma mul_number (x k : float) :
  is_nan x = false -> positive_finite k -> is_nan (x * k) = false.
Proof.
  intros Hx (m & e & Hk). rewrite is_nan_spec in *. rewrite mul_spec, Hk.
  apply SFmul_finite_not_nan, Hx.
Qed.

Lemma of_Z_number (z : Z) : is_nan (Num.of_Z z) = false.
Proof. rewrite is_nan_spec. apply of_Z_not_nan. Qed.

Lemma of_Z_not_negative (z : Z) : (0 <= z)%Z -> not_negative (Num.of_Z z).
Proof. apply of_Z_signed. Qed.

(** Below zero there is no number that is not negative. *)
Lemma not_negative_ltb (x : float) : not_negative x -> (x <? 0) = false.
Proof.
  unfold not_negative. rewrite ltb_spec. change (Prim2SF 0) with (S754_zero false).
  destruct (Prim2SF x) as [s | s | | s m e]; cbn; intros H; subst; tauto.
Qed.

Lemma Math_round_not_negative (x : float) :
  not_negative x -> not_negative (Num.Math_round x).
Proof.
  unfold not_negative, Num.Math_round. intros H.
  destruct (Prim2SF x) as [s | s | | s m e] eqn:E; try (rewrite E; exact H).
  cbn in H. subst s.
  destruct (0 <=? e)%Z eqn:He; [rewrite E; reflexivity |].
  apply Z.leb_gt in He. cbn [cond_Zopp].
  destruct (_ =? 0)%Z eqn:Hn; [reflexivity |].
  apply of_Z_signed. apply Z.div_pos.
  - assert (0 < 2 ^ (- e))%Z by (apply Z.pow_pos_nonneg; lia). lia.
  - apply Z.pow_pos_nonneg; lia.
Qed.

Lemma Math_round_number (x : float) :
  is_nan x = false -> is_nan (Num.Math_round x) = false.
Proof.
  rewrite !is_nan_spec. unfold Num.Math_round. intros H.
  destruct (Prim2SF x) as [s | s | | s m e] eqn:E; try (rewrite E; exact H).
  destruct (0 <=? e)%Z; [rewrite E; reflexivity |].
  destruct (_ =? 0)%Z; [destruct s; reflexivity | apply of_Z_not_nan].
Qed.

Lemma ltb_leb (x y : float) : (x <? y) = true -> (x <=? y) = true.
Proof.
  rewrite ltb_spec, leb_spec. unfold SFltb, SFleb.
  destruct (SFcompare _ _) as [[] |]; congruence.
Qed.

Lemma leb_ltb_false (x y : float) : (x <=? y) = true -> (y <? x) = false.
Proof.
  rewrite ltb_spec, leb_spec. unfold SFltb, SFleb.
  rewrite (SFcompare_antisym (Prim2SF x) (Prim2SF y)).
  destruct (SFcompare _ _) as [[] |]; cbn; congruence.
Qed.

Lemma leb_trans (x y z : float) :
  (x <=? y) = true -> (y <=? z) = true -> (x <=? z) = true.
Proof. rewrite !leb_spec. apply SFleb_trans. Qed.

Lemma eqb_leb (x y : float) :
  (x =? y) = true -> (x <=? y) = true /\ (y <=? x) = true.
Proof.
  rewrite eqb_spec, !leb_spec. unfold SFeqb, SFleb.
  rewrite (SFcompare_antisym (Prim2SF x) (Prim2SF y)).
  destruct (SFcompare _ _) as [[] |]; cbn; intros H; try discriminate; auto.
Qed.

(** Two numbers equal to a third are not one below the other. *)
Lemma tied_not_below (z x y : float) :
  (z =? x) = true -> (z =? y) = true -> (x <? y) = false.
Proof.
  intros Hx Hy. apply leb_ltb_false.
  destruct (eqb_leb _ _ Hx) as [_ Hxz]. destruct (eqb_leb _ _ Hy) as [Hzy _].
  destruct (eqb_leb _ _ Hx) as [Hzx _]. destruct (eqb_leb _ _ Hy) as [_ Hyz].
  exact (leb_trans _ _ _ Hyz Hzx).
Qed.

End PrimFacts.

(** * Rounding to an integer, and the larger of two numbers *)

Module RoundFacts.

Import NumFacts FloatFacts PrimFacts.
Local Open Scope float_scope.

Lemma is_nan_nan (a : float) : is_nan a = true -> a = nan.
Proof.
  rewrite is_nan_spec. intros H. apply Prim2SF_inj.
  destruct (Prim2SF a); try discriminate. reflexivity.
Qed.

(** A number that compares equal to a finite number other than zero is that number. *)
Lemma SFcompare_eq_finite (x : spec_float) (s : bool) (m : positive) (e : Z) :
  SFcompare x (S754_finite s m e) = Some Eq -> x = S754_finite s m e.
Proof.
  destruct x as [sx | sx | | sx mx ex]; cbn [SFcompare];
    try (destruct sx; discriminate); try (destruct s; discriminate); try discriminate.
  destruct sx, s; try discriminate.
  - destruct (Z.compare_spec ex e); try discriminate. subst.
    intros H. injection H as H.
    destruct (Pos.compare_cont Eq mx m) eqn:C; try discriminate.
    apply Pos.compare_eq in C. subst. reflexivity.
  - destruct (Z.compare_spec ex e); try discriminate. subst.
    intros H. injection H as H.
    apply Pos.compare_eq in H. subst. reflexivity.
Qed.

Lemma Math_max_half (a : float) : Num.Math_max a 0.5 = Spec.max a 0.5.
Proof.
  unfold Num.Math_max, Spec.max.
  destruct (is_nan a) eqn:N.
  - rewrite (is_nan_nan a N). reflexivity.
  - change (is_nan 0.5) with false. cbn [orb].
    destruct (a <? 0.5) eqn:L; [reflexivity |].
    destruct (0.5 <? a) eqn:G; [reflexivity |].
    assert (E : a = 0.5).
    { apply Prim2SF_inj. change (Prim2SF 0.5) with (S754_finite false 4503599627370496 (-53)).
      apply SFcompare_eq_finite.
      rewrite ltb_spec in L, G. rewrite is_nan_spec in N.
      change (Prim2SF 0.5) with (S754_finite false 4503599627370496 (-53)) in L, G.
      unfold SFltb in L, G.
      rewrite (SFcompare_antisym (Prim2SF a)) in G.
      destruct (SFcompare (Prim2SF a) _) as [[] |] eqn:C; try discriminate; try reflexivity.
      apply SFcompare_nan in C. destruct C as [C | C]; [congruence | discriminate]. }
    rewrite E. reflexivity.
Qed.

(** The number of binary digits, from the bounds it gives. *)
Lemma digits2_unique (m : positive) (d : Z) :
  (2 ^ (d - 1) <= Z.pos m < 2 ^ d)%Z -> Z.pos (digits2_pos m) = d.
Proof.
  intros [Hlo Hhi]. destruct (digits2_bounds m) as [Dlo Dhi].
  set (k := Z.pos (digits2_pos m)) in *.
  assert (0 < d)%Z.
  { destruct (Z.lt_total d 0) as [L | [E | L]]; [| | exact L].
    - rewrite Z.pow_neg_r in Hhi by exact L. lia.
    - subst d. change (2 ^ 0)%Z with 1%Z in Hhi. lia. }
  destruct (Z.lt_total k d) as [L | [E | L]]; [| exact E |]; exfalso.
  - assert (2 ^ k <= 2 ^ (d - 1))%Z by (apply Z.pow_le_mono_r; lia). lia.
  - assert (2 ^ d <= 2 ^ (k - 1))%Z by (apply Z.pow_le_mono_r; lia). lia.
Qed.

Lemma shl_align_exponent (m : positive) (e e' : Z) :
  snd (shl_align m e e') = Z.min e e'.
Proof.
  unfold shl_align. destruct (e' - e)%Z eqn:E; cbn [snd]; lia.
Qed.

(** A mantissa of 53 digits with an exponent in range is kept by the rounding. *)
Lemma binary_round_aux_kept (s : bool) (m : positive) (e : Z) :
  Z.pos (digits2_pos m) = 53%Z -> (emin64 <= e <= emax - prec)%Z ->
  binary_round_aux prec emax s (Z.pos m) e loc_Exact = S754_finite s m e.
Proof.
  intros D He. unfold binary_round_aux, shr_fexp. cbn [Zdigits2]. rewrite D.
  assert (F : (fexp prec emax (53 + e) - e = 0)%Z)
    by (unfold fexp, emin64, SpecFloat.emin, prec, emax in *; lia).
  rewrite F. cbn [shr shr_record_of_loc shr_m loc_of_shr_record round_nearest_even Zdigits2].
  rewrite D, F. cbn [shr shr_record_of_loc shr_m].
  destruct He as [_ He]. apply Z.leb_le in He. rewrite He. reflexivity.
Qed.

(** An integer of at most 53 binary digits is a Number: rounding it gives
    a valid number of the same value. *)
Lemma binary_round_integer (s : bool) (p : positive) :
  (Z.pos p < 2 ^ 53)%Z ->
  exists m e,
    binary_round prec emax s p 0 = S754_finite s m e /\
    valid_binary (S754_finite s m e) = true /\
    (e <= 0)%Z /\ Z.pos m = (Z.pos p * 2 ^ (- e))%Z.
Proof.
  intros Hp. unfold binary_round.
  destruct (digits2_bounds p) as [Dlo Dhi].
  set (d := Z.pos (digits2_pos p)) in *.
  assert (D1 : (1 <= d)%Z) by (unfold d; lia).
  assert (D53 : (d <= 53)%Z).
  { destruct (Z.le_gt_cases d 53) as [L | L]; [exact L | exfalso].
    assert (2 ^ 53 <= 2 ^ (d - 1))%Z by (apply Z.pow_le_mono_r; lia). lia. }
  replace (fexp prec emax (d + 0)) with (d - 53)%Z
    by (unfold fexp, SpecFloat.emin, prec, emax; lia).
  pose proof (shl_align_value p 0 (d - 53) ltac:(lia)) as V.
  pose proof (shl_align_exponent p 0 (d - 53)) as X.
  destruct (shl_align p 0 (d - 53)) as [mz ez]. cbn [fst snd] in V, X.
  rewrite Z.min_r in X by lia. subst ez.
  replace (0 - (d - 53))%Z with (53 - d)%Z in V by lia.
  assert (P : (0 < 2 ^ (53 - d))%Z) by (apply Z.pow_pos_nonneg; lia).
  assert (S52 : (2 ^ (d - 1) * 2 ^ (53 - d) = 2 ^ 52)%Z)
    by (rewrite <- Z.pow_add_r by lia; f_equal; lia).
  assert (S53 : (2 ^ d * 2 ^ (53 - d) = 2 ^ 53)%Z)
    by (rewrite <- Z.pow_add_r by lia; f_equal; lia).
  assert (D : Z.pos (digits2_pos mz) = 53%Z).
  { apply digits2_unique. rewrite V. change (53 - 1)%Z with 52%Z.
    rewrite <- S52, <- S53. split.
    - apply Z.mul_le_mono_nonneg_r; lia.
    - apply Z.mul_lt_mono_pos_r; lia. }
  exists mz, (d - 53)%Z.
  split; [apply binary_round_aux_kept; [exact D |];
          unfold emin64, prec, emax; lia |].
  split; [| split; [lia | rewrite V; f_equal; f_equal; lia]].
  unfold valid_binary, bounded, canonical_mantissa. rewrite D.
  apply andb_true_iff. split; [apply Z.eqb_eq | apply Z.leb_le];
    unfold fexp, SpecFloat.emin, prec, emax; lia.
Qed.

(** Converting an integer below [2^53] in magnitude loses nothing. *)
Lemma of_Z_integer (n : Z) :
  (Z.abs n < 2 ^ 53)%Z -> Spec.is_integer (Num.of_Z n) n.
Proof.
  intros H. unfold Spec.is_integer, Num.of_Z.
  destruct n as [| p | p]; cbn [binary_normalize].
  - reflexivity.
  - destruct (binary_round_integer false p H) as (m & e & -> & V & He & Hm).
    rewrite (Prim2SF_SF2Prim _ V). cbn [cond_Zopp].
    rewrite Z.max_l, Z.max_r by lia. rewrite Hm. change (2 ^ 0)%Z with 1%Z. lia.
  - destruct (binary_round_integer true p H) as (m & e & -> & V & He & Hm).
    rewrite (Prim2SF_SF2Prim _ V). cbn [cond_Zopp].
    rewrite Z.max_l, Z.max_r by lia. rewrite Hm. change (2 ^ 0)%Z with 1%Z. lia.
Qed.

Lemma finite_mantissa_bound (s : bool) (m : positive) (e : Z) :
  valid_binary (S754_finite s m e) = true -> (Z.pos m < 2 ^ 53)%Z.
Proof.
  intros V. destruct (valid_digits _ _ _ V) as (D & _ & _).
  destruct (digits2_bounds m) as [_ H].
  eapply Z.lt_le_trans; [exact H |]. apply Z.pow_le_mono_r; lia.
Qed.

(** [Math.round] gives the nearest integer, a half going up. *)
Lemma Math_round_rounded (x : float) : Spec.rounded x (Num.Math_round x).
Proof.
  unfold Spec.rounded, Num.Math_round.
  pose proof (Prim2SF_valid x) as V.
  destruct (Prim2SF x) as [s | s | | s m e] eqn:E; try reflexivity.
  pose proof (finite_mantissa_bound s m e V) as Hm.
  set (sm := cond_Zopp s (Z.pos m)) in *.
  assert (Hsm : (sm <> 0 /\ - 2 ^ 53 < sm < 2 ^ 53)%Z)
    by (unfold sm; destruct s; cbn [cond_Zopp]; lia).
  destruct (Z.leb_spec 0 e) as [He | He].
  - exists (sm * 2 ^ e)%Z. unfold Spec.nearest_integer, Spec.is_integer.
    rewrite E. fold sm. rewrite Z.max_l, Z.max_r by lia.
    change (2 ^ 0)%Z with 1%Z.
    assert (P : (0 < 2 ^ e)%Z) by (apply Z.pow_pos_nonneg; lia).
    split; [lia |]. split; [lia |]. intros Z0. exfalso. nia.
  - set (P := (2 ^ (- e))%Z).
    assert (HP : (2 <= P)%Z).
    { unfold P. change 2%Z with (2 ^ 1)%Z at 1. apply Z.pow_le_mono_r; lia. }
    replace (2 ^ (- e + 1))%Z with (2 * P)%Z
      by (unfold P; rewrite Z.pow_add_r by lia; change (2 ^ 1)%Z with 2%Z; lia).
    set (n := ((sm * 2 + P) / (2 * P))%Z).
    pose proof (Z.div_mod (sm * 2 + P) (2 * P) ltac:(lia)) as Hd.
    pose proof (Z.mod_pos_bound (sm * 2 + P) (2 * P) ltac:(lia)) as Hr.
    fold n in Hd. set (r := ((sm * 2 + P) mod (2 * P))%Z) in *.
    assert (N : Spec.nearest_integer sm e n).
    { unfold Spec.nearest_integer. rewrite Z.max_r, Z.max_l by lia.
      fold P. change (2 ^ 0)%Z with 1%Z. nia. }
    exists n. split; [exact N |].
    unfold Spec.nearest_integer in N. rewrite Z.max_r, Z.max_l in N by lia.
    fold P in N. change (2 ^ 0)%Z with 1%Z in N.
    destruct (Z.eqb_spec n 0) as [Z0 | Z0].
    + split; [| reflexivity]. unfold Spec.is_integer.
      destruct s; cbn; exact Z0.
    + split; [| intros; contradiction].
      apply of_Z_integer. change (2 ^ 53)%Z with 9007199254740992%Z in *. nia.
Qed.

Lemma velocity_of_spec (row : Cohort.t) :
  velocity_of row = Spec.velocity (Cohort.count row) (Cohort.avg_age_days row).
Proof. unfold velocity_of, Spec.velocity. rewrite Math_max_half. reflexivity. Qed.

(** At or below the floor the larger number is the floor. *)
Lemma max_half_below (a : float) : (a <=? 0.5) = true -> Spec.max a 0.5 = 0.5.
Proof.
  intros H. unfold Spec.max. destruct (a <? 0.5) eqn:L; [reflexivity |].
  apply Prim2SF_inj. change (Prim2SF 0.5) with (S754_finite false 4503599627370496 (-53)).
  apply SFcompare_eq_finite.
  rewrite leb_spec in H. rewrite ltb_spec in L.
  change (Prim2SF 0.5) with (S754_finite false 4503599627370496 (-53)) in H, L.
  unfold SFleb in H. unfold SFltb in L.
  destruct (SFcompare (Prim2SF a) _) as [[] |]; try discriminate; reflexivity.
Qed.

Lemma max_half_above (a : float) : (0.5 <? a) = true -> Spec.max a 0.5 = a.
Proof.
  intros H. unfold Spec.max.
  rewrite (leb_ltb_false _ _ (ltb_leb _ _ H)). reflexivity.
Qed.

End RoundFacts.

(** C6. The velocity of a cohort is [count / max(avg_age_days, 0.5)]: the
    count divided by the age when the age is above half a day, and by 0.5
    when it is not, an age of zero included. The trend is accelerating when
    that quotient is above 5, rising when it is above 2 and at most 5, and
    stable otherwise. The record reports the quotient rounded to one decimal
    place (the tenth part of the integer nearest to ten times the quotient,
    a half going up), while the trend is decided on the quotient itself. *)
Theorem velocity_and_trend (row : Cohort.t) (outcome : ai_outcome) :
  let c := Num.of_Z (Cohort.count row) in
  let a := Cohort.avg_age_days row in
  let v := Spec.velocity (Cohort.count row) a in
  let r := risk_of row outcome in
  velocity_of row = v /\
  Spec.round1 v (velocity r) /\
  (trend r = "accelerating" <-> (5 <? v)%float = true) /\
  (trend r = "rising" <-> (2 <? v)%float = true /\ (v <=? 5)%float = true) /\
  (trend r = "stable" <->
     (5 <? v)%float = false /\ ~ ((2 <? v)%float = true /\ (v <=? 5)%float = true)) /\
  ((a <=? 0.5)%float = true -> velocity_of row = (c / 0.5)%float) /\
  ((0.5 <? a)%float = true -> velocity_of row = (c / a)%float) /\
  (forall k u c s, velocity_of (Cohort.mk k u c s 0%float) = (Num.of_Z c / 0.5)%float).
Proof.
  cbv zeta. rewrite risk_velocity, risk_trend, RoundFacts.velocity_of_spec.
  set (v := Spec.velocity _ _). split; [reflexivity |].
  destruct (trend_of_cases v) as (Ha & Hr & Hs). unfold Num.gt in *.
  assert (L : (2 <? v)%float = true -> (v <=? 5)%float = negb (5 <? v)%float).
  { intros H. apply NumFacts.leb_negb_ltb.
    - apply (NumFacts.ltb_numbers _ _ H).
    - reflexivity. }
  split; [exists (Num.Math_round (v * 10)); split;
          [apply RoundFacts.Math_round_rounded | reflexivity] |].
  split; [exact Ha |]. split; [| split; [| split; [| split]]].
  - rewrite Hr. split.
    + intros [H5 H2]. split; [exact H2 |]. rewrite (L H2), H5. reflexivity.
    + intros [H2 Hle]. split; [| exact H2].
      rewrite (L H2) in Hle. destruct (5 <? v)%float; [discriminate | reflexivity].
  - rewrite Hs. split.
    + intros [H5 H2]. split; [exact H5 |]. intros [H2' _]. congruence.
    + intros [H5 Hn]. split; [exact H5 |].
      destruct (2 <? v)%float eqn:H2; [| reflexivity].
      exfalso. apply Hn. split; [reflexivity |]. rewrite (L eq_refl), H5. reflexivity.
  - intros H. unfold v, Spec.velocity. rewrite (RoundFacts.max_half_below _ H). reflexivity.
  - intros H. unfold v, Spec.velocity. rewrite (RoundFacts.max_half_above _ H). reflexivity.
  - intros k u c s. reflexivity.
Qed.


(** * The multiplier chain *)

Section Chain.
Import NumFacts FloatFacts PrimFacts.
Local Open Scope float_scope.

Lemma positive_finite_intro (k : float) (m : positive) (e : Z) :
  Prim2SF k = S754_finite false m e -> positive_finite k.
Proof. intros H. exists m, e. exact H. Qed.

Lemma userMultiplier_positive (u : string) : positive_finite (userMultiplier u).
Proof.
  unfold userMultiplier. destruct (String.eqb u "enterprise");
    eapply positive_finite_intro; reflexivity.
Qed.

Lemma recencyMultiplier_positive (a : float) : positive_finite (recencyMultiplier a).
Proof.
  unfold recencyMultiplier. destruct (a <? 1); [| destruct (a <? 7)];
    eapply positive_finite_intro; reflexivity.
Qed.

(** What the table lookup gives for a name that is not inherited: the
    listed weight, or 1.0. *)
Lemma categoryMultiplier_listed (k : string) :
  Obj.inherited k = false -> categoryMultiplier k = Spec.catMult k.
Proof.
  intros H. unfold categoryMultiplier, Obj.get, criticalCategories, Spec.catMult.
  cbn [Obj.own]. rewrite !(String.eqb_sym _ k).
  repeat (destruct (String.eqb k _); [reflexivity |]).
  rewrite H. reflexivity.
Qed.

(** For an inherited name the lookup finds the member, and the factor is NaN. *)
Lemma categoryMultiplier_inherited (k : string) :
  Obj.inherited k = true -> categoryMultiplier k = nan.
Proof.
  intros H. unfold categoryMultiplier, Obj.get, criticalCategories.
  cbn [Obj.own]. rewrite !(String.eqb_sym _ k).
  repeat (destruct (String.eqb k _) eqn:?E;
          [apply String.eqb_eq in E; subst k; discriminate H | clear E]).
  rewrite H. reflexivity.
Qed.

Lemma catMult_positive (k : string) : positive_finite (Spec.catMult k).
Proof.
  unfold Spec.catMult.
  repeat (destruct (String.eqb k _); [eapply positive_finite_intro; reflexivity |]).
  eapply positive_finite_intro; reflexivity.
Qed.

Lemma sentiment_boost_factor (s : Json.json) (x : float) :
  sentiment_boost s x = x * Spec.sentMult s.
Proof.
  unfold sentiment_boost, Spec.sentMult.
  destruct (is_string s "critical"); [reflexivity |].
  destruct (is_string s "negative"); [reflexivity |].
  symmetry. apply mul_one_r.
Qed.

Lemma sentMult_positive (s : Json.json) : positive_finite (Spec.sentMult s).
Proof.
  unfold Spec.sentMult.
  destruct (is_string s "critical"); [eapply positive_finite_intro; reflexivity |].
  destruct (is_string s "negative"); eapply positive_finite_intro; reflexivity.
Qed.

Lemma trend_boost_factor (t : string) (x : float) :
  trend_boost t x = x * Spec.trendMult t.
Proof.
  unfold trend_boost, Spec.trendMult.
  destruct (String.eqb t "accelerating"); [reflexivity |].
  symmetry. apply mul_one_r.
Qed.

Lemma trendMult_positive (t : string) : positive_finite (Spec.trendMult t).
Proof.
  unfold Spec.trendMult.
  destruct (String.eqb t "accelerating"); eapply positive_finite_intro; reflexivity.
Qed.

(** After the [try], the score is the score before it times the factor of
    the sentiment the record carries. *)
Lemma after_try_factor (outcome : ai_outcome) (x : float) :
  snd (after_try outcome x) = x * Spec.sentMult (fst (after_try outcome x)).
Proof.
  unfold after_try. destruct (assigned_sentiment outcome) as [s |]; cbn [fst snd].
  - apply sentiment_boost_factor.
  - symmetry. apply mul_one_r.
Qed.

(** The score before rounding, as one product. *)
Lemma unrounded_score (row : Cohort.t) (outcome : ai_outcome) :
  trend_boost (trend_of (velocity_of row))
    (snd (after_try outcome (score_before_ai row))) =
  Num.of_Z (Cohort.count row) * 10
  * userMultiplier (Cohort.user_type row)
  * categoryMultiplier (Cohort.category row)
  * recencyMultiplier (Cohort.avg_age_days row)
  * Spec.sentMult (sentiment (risk_of row outcome))
  * Spec.trendMult (trend (risk_of row outcome)).
Proof.
  rewrite trend_boost_factor, after_try_factor, risk_sentiment, risk_trend.
  reflexivity.
Qed.

End Chain.

(** X1. For a cohort whose category is not the name of a member of
    [Object.prototype], the score is the rounded product of the six factors
    taken from the left: factors the code skips (neutral or any other
    sentiment, a trend that is not accelerating) count as 1.0, and an
    unlisted category counts as 1.0. *)
Theorem score_is_the_chain (row : Cohort.t) (outcome : ai_outcome) :
  Obj.inherited (Cohort.category row) = false ->
  let r := risk_of row outcome in
  severity_score r =
  Spec.score (Cohort.count row) (Cohort.user_type row) (Cohort.category row)
    (Cohort.avg_age_days row) (sentiment r) (trend r).
Proof.
  intros H. cbv zeta. rewrite risk_severity_score, unrounded_score.
  rewrite (categoryMultiplier_listed _ H). reflexivity.
Qed.

Lemma score_is_the_chain_witness :
  severity_score (risk_of Sample.perf Sample.says_critical) = 491%float.
Proof.
  rewrite (score_is_the_chain Sample.perf Sample.says_critical eq_refl).
  vm_compute. reflexivity.
Defined.

Lemma is_nan_score (row : Cohort.t) (outcome : ai_outcome) :
  is_nan (severity_score (risk_of row outcome)) = Obj.inherited (Cohort.category row).
Proof.
  rewrite risk_severity_score, unrounded_score.
  destruct (Obj.inherited (Cohort.category row)) eqn:H.
  - rewrite (categoryMultiplier_inherited _ H).
    rewrite PrimFacts.mul_nan_r, !PrimFacts.mul_nan_l. reflexivity.
  - rewrite (categoryMultiplier_listed _ H).
    apply PrimFacts.Math_round_number.
    repeat (apply PrimFacts.mul_number;
            [| first [ apply trendMult_positive | apply sentMult_positive
                     | apply recencyMultiplier_positive | apply catMult_positive
                     | apply userMultiplier_positive
                     | eapply positive_finite_intro; reflexivity ]]).
    apply PrimFacts.of_Z_number.
Qed.

(** X2. The score is NaN exactly for the cohorts whose category is the name of
    a member of [Object.prototype], whatever the count, the age and the
    classifier's answer; such a record is not counted as critical, and it
    compares neither above nor below any other score. *)
Theorem score_nan_iff_inherited (row : Cohort.t) (outcome : ai_outcome) :
  let score := severity_score (risk_of row outcome) in
  is_nan score = Obj.inherited (Cohort.category row) /\
  (Obj.inherited (Cohort.category row) = true ->
   score = nan /\ Num.gt score 100 = false /\
   forall other, Num.ge score other = false /\ Num.ge other score = false).
Proof.
  cbv zeta. split; [apply is_nan_score |]. intros H.
  assert (E : severity_score (risk_of row outcome) = nan).
  { rewrite risk_severity_score, unrounded_score, (categoryMultiplier_inherited _ H).
    rewrite PrimFacts.mul_nan_r, !PrimFacts.mul_nan_l. reflexivity. }
  rewrite E. split; [reflexivity |]. split; [reflexivity |].
  intros other. unfold Num.ge. split.
  - apply NumFacts.leb_nan_r. reflexivity.
  - apply NumFacts.leb_nan_l. reflexivity.
Qed.

(** X3. With a count that is not negative the score is never below zero, and
    unless it is NaN it is +0, a positive number or +infinity. *)
Theorem score_never_negative (row : Cohort.t) (outcome : ai_outcome) :
  (0 <= Cohort.count row)%Z ->
  (severity_score (risk_of row outcome) <? 0)%float = false /\
  (Obj.inherited (Cohort.category row) = false ->
   not_negative (severity_score (risk_of row outcome))).
Proof.
  intros Hc.
  assert (P : Obj.inherited (Cohort.category row) = false ->
              not_negative (severity_score (risk_of row outcome))).
  { intros H. rewrite risk_severity_score, unrounded_score.
    rewrite (categoryMultiplier_listed _ H).
    apply PrimFacts.Math_round_not_negative.
    repeat (apply PrimFacts.mul_not_negative;
            [| first [ apply trendMult_positive | apply sentMult_positive
                     | apply recencyMultiplier_positive | apply catMult_positive
                     | apply userMultiplier_positive
                     | eapply positive_finite_intro; reflexivity ]]).
    apply PrimFacts.of_Z_not_negative, Hc. }
  split; [| exact P].
  destruct (Obj.inherited (Cohort.category row)) eqn:H.
  - pose proof (is_nan_score row outcome) as N. rewrite H in N.
    rewrite ltb_spec. rewrite NumFacts.is_nan_spec in N.
    destruct (Prim2SF (severity_score (risk_of row outcome))); try discriminate.
    reflexivity.
  - apply PrimFacts.not_negative_ltb, P, eq_refl.
Qed.

Lemma score_never_negative_witness :
  (severity_score (risk_of Sample.misc Sample.says_critical) <? 0)%float = false.
Proof.
  assert (H : (0 <= Cohort.count Sample.misc)%Z) by (vm_compute; discriminate).
  exact (proj1 (score_never_negative Sample.misc Sample.says_critical H)).
Defined.

(** * The sort *)

Section SortFacts.
Context {A : Type}.
Variable comparefn : A -> A -> float.

Lemma insert_permutation (x : A) (l : list A) :
  Permutation (Arr.insert comparefn x l) (x :: l).
Proof.
  induction l as [| y r IH]; cbn [Arr.insert]; [reflexivity |].
  destruct (Arr.after comparefn x y); [| reflexivity].
  rewrite IH. apply perm_swap.
Qed.

(** Whatever the comparator returns, sorting rearranges: nothing is lost,
    nothing is added. *)
Lemma sort_permutation (l : list A) : Permutation (Arr.sort comparefn l) l.
Proof.
  induction l as [| x r IH]; cbn [Arr.sort fold_right]; [reflexivity |].
  fold (Arr.sort comparefn r). rewrite insert_permutation, IH. reflexivity.
Qed.

Lemma sort_length (l : list A) : List.length (Arr.sort comparefn l) = List.length l.
Proof. apply Permutation_length, sort_permutation. Qed.

(** An insertion moves [x] only past elements it must follow, so a class of
    elements that never have to follow one another keeps its order. *)
Lemma filter_insert (p : A -> bool) (x : A) (l : list A) :
  (forall y, p x = true -> p y = true -> Arr.after comparefn x y = false) ->
  filter p (Arr.insert comparefn x l) = filter p (x :: l).
Proof.
  intros Hp. induction l as [| y r IH]; cbn [Arr.insert]; [reflexivity |].
  destruct (Arr.after comparefn x y) eqn:E; [| reflexivity].
  cbn [filter] in *. rewrite IH.
  destruct (p x) eqn:Px, (p y) eqn:Py; try reflexivity.
  rewrite (Hp y eq_refl Py) in E. discriminate.
Qed.

Lemma filter_sort (p : A -> bool) (l : list A) :
  (forall x y, p x = true -> p y = true -> Arr.after comparefn x y = false) ->
  filter p (Arr.sort comparefn l) = filter p l.
Proof.
  intros Hp. induction l as [| x r IH]; cbn [Arr.sort fold_right]; [reflexivity |].
  fold (Arr.sort comparefn r). rewrite filter_insert by (intros y; apply Hp).
  cbn [filter]. rewrite IH. reflexivity.
Qed.

End SortFacts.

Section SortByScore.
Import PrimFacts.

Lemma after_by_score (x y : RiskAnalysis) :
  Arr.after by_score x y = (severity_score x <? severity_score y)%float.
Proof. unfold Arr.after, by_score, Num.gt. apply FloatFacts.sub_positive. Qed.

Lemma insert_descending (x : RiskAnalysis) (l : list RiskAnalysis) :
  is_nan (severity_score x) = false ->
  Forall (fun r => is_nan (severity_score r) = false) l ->
  Spec.descending l -> Spec.descending (Arr.insert by_score x l).
Proof.
  unfold Spec.descending, Num.ge. intros Nx Nl Hs.
  induction Hs as [| y r Hr IH Hy]; cbn [Arr.insert].
  - repeat constructor.
  - inversion Nl as [| ? ? Ny Nr]; subst.
    rewrite after_by_score. destruct (severity_score x <? severity_score y)%float eqn:E.
    + constructor; [apply IH, Nr |].
      apply (Permutation_Forall (Permutation_sym (insert_permutation by_score x r))).
      constructor; [apply ltb_leb, E | exact Hy].
    + assert (Hyx : (severity_score y <=? severity_score x)%float = true)
        by (rewrite NumFacts.leb_negb_ltb, E by assumption; reflexivity).
      constructor; [constructor; assumption |].
      constructor; [exact Hyx |].
      rewrite Forall_forall in *. intros z Hz.
      exact (leb_trans _ _ _ (Hy z Hz) Hyx).
Qed.

(** Records without a NaN score come out in descending order. *)
Lemma sort_descending (l : list RiskAnalysis) :
  Forall (fun r => is_nan (severity_score r) = false) l ->
  Spec.descending (Arr.sort by_score l).
Proof.
  induction l as [| x r IH]; intros N; cbn [Arr.sort fold_right].
  - constructor.
  - inversion N as [| ? ? Nx Nr]; subst. fold (Arr.sort by_score r).
    apply insert_descending; [exact Nx | | apply IH, Nr].
    apply (Permutation_Forall (Permutation_sym (sort_permutation by_score r))), Nr.
Qed.

(** Records with the score of [x] keep the order they had. *)
Lemma sort_stable (x : RiskAnalysis) (l : list RiskAnalysis) :
  filter (Spec.tied x) (Arr.sort by_score l) = filter (Spec.tied x) l.
Proof.
  apply filter_sort. intros a b Ha Hb. rewrite after_by_score.
  exact (tied_not_below _ _ _ Ha Hb).
Qed.

End SortByScore.

(** * What a computed analysis holds *)

Lemma risks_from_length (env : Env) (rows : list Cohort.t) :
  forall call, List.length (risks_from env call rows) = List.length rows.
Proof. induction rows; intros call; simpl; auto. Qed.

Lemma risks_from_numbers (env : Env) (rows : list Cohort.t) :
  Forall (fun row => Obj.inherited (Cohort.category row) = false) rows ->
  forall call,
    Forall (fun r => is_nan (severity_score r) = false) (risks_from env call rows).
Proof.
  induction 1 as [| row rest Hrow _ IH]; intros call; cbn [risks_from]; constructor.
  - rewrite is_nan_score. exact Hrow.
  - apply IH.
Qed.

Lemma filter_permutation {A} (p : A -> bool) (l l' : list A) :
  Permutation l l' -> Permutation (filter p l) (filter p l').
Proof.
  induction 1 as [| x l l' _ IH | x y l | l l' l'' _ IH1 _ IH2]; cbn [filter].
  - constructor.
  - destruct (p x); [constructor |]; exact IH.
  - destruct (p y), (p x); try reflexivity. apply perm_swap.
  - etransitivity; eassumption.
Qed.

(** An analysis that an invocation returns with [cached] false is the one
    computed from the rows of the store. *)
Lemma returned_fresh (env : Env) (a : Analysis) :
  fst (invoke env) = Ok a -> cached a = false ->
  exists rows, DB env = Some rows /\ a = fresh env rows.
Proof.
  rewrite invoke_returned. unfold returned. intros H Hc.
  assert (C : forall b : bool,
             match DB env with
             | Some rows => if b then Throw CacheWriteError else Ok (fresh env rows)
             | None => Throw StoreError
             end = Ok a ->
             exists rows, DB env = Some rows /\ a = fresh env rows).
  { intros b E. destruct (DB env) as [rows |]; [| discriminate].
    destruct b; [discriminate |]. injection E as <-. eauto. }
  destruct (CACHE env) as [ns |]; [| exact (C false H)].
  destruct (get_fails ns); [discriminate |].
  destruct (Obj.own (entries ns) cacheKey) as [[payload ttl] |]; [| exact (C _ H)].
  injection H as <-. discriminate Hc.
Qed.

(** X5. A computed analysis holds one record for each row of the store, each
    exactly once, whatever the scores are; [top_risks] is the first five of
    [all_risks] (all of them when there are fewer), and [critical_count] is
    the number of scores above 100 in [all_risks], which is the number
    counted before the sort. *)
Theorem computed_analysis_accounts (env : Env) (a : Analysis) :
  fst (invoke env) = Ok a -> cached a = false ->
  exists rows,
    DB env = Some rows /\
    Permutation (all_risks a) (risks_from env 0 rows) /\
    total_risks a = List.length rows /\
    List.length (all_risks a) = List.length rows /\
    top_risks a = firstn 5 (all_risks a) /\
    List.length (top_risks a) = Nat.min 5 (List.length rows) /\
    critical_count a
      = List.length (filter (fun r => (100 <? severity_score r)%float) (all_risks a)) /\
    critical_count a
      = List.length (filter (fun r => (100 <? severity_score r)%float)
                       (risks_from env 0 rows)).
Proof.
  intros H Hc. destruct (returned_fresh env a H Hc) as (rows & Hdb & ->).
  exists rows. unfold fresh, assemble.
  cbn [total_risks all_risks top_risks critical_count].
  pose proof (sort_permutation by_score (risks_from env 0 rows)) as P.
  assert (L : List.length (Arr.sort by_score (risks_from env 0 rows)) = List.length rows)
    by (rewrite sort_length; apply risks_from_length).
  split; [exact Hdb |]. split; [exact P |].
  split; [exact L |]. split; [exact L |]. split; [reflexivity |].
  split; [unfold Arr.slice0; rewrite length_firstn, L; reflexivity |].
  split; [reflexivity |].
  unfold Arr.count. apply Permutation_length, filter_permutation, P.
Qed.

Lemma computed_analysis_accounts_witness :
  let env := Sample.env_of [Sample.misc; Sample.perf] (fun _ _ => Sample.says_critical)
               (Some Sample.healthy_cache) in
  exists rows, DB env = Some rows /\ total_risks (fresh env rows) = 2%nat.
Proof.
  intros env.
  destruct (computed_analysis_accounts env (fresh env [Sample.misc; Sample.perf]))
    as (rows & Hdb & _ & Ht & _).
  - rewrite invoke_returned. reflexivity.
  - reflexivity.
  - injection Hdb as <-. exists [Sample.misc; Sample.perf]. split; reflexivity.
Defined.

(** X6. When no category of the store is the name of a member of
    [Object.prototype], [all_risks] is in descending order of score, records
    of equal score stand in the order of their rows, and every record of
    [top_risks] scores at least as much as every record left out of it. *)
Theorem computed_analysis_ranked (env : Env) (a : Analysis) (rows : list Cohort.t) :
  fst (invoke env) = Ok a -> cached a = false -> DB env = Some rows ->
  Forall (fun row => Obj.inherited (Cohort.category row) = false) rows ->
  Spec.descending (all_risks a) /\
  (forall x, filter (Spec.tied x) (all_risks a)
             = filter (Spec.tied x) (risks_from env 0 rows)) /\
  forall x y,
    In x (top_risks a) -> In y (skipn 5 (all_risks a)) ->
    (severity_score y <=? severity_score x)%float = true.
Proof.
  intros H Hc Hdb Hrows. destruct (returned_fresh env a H Hc) as (rows' & Hdb' & ->).
  rewrite Hdb in Hdb'. injection Hdb' as <-.
  assert (D : Spec.descending (all_risks (fresh env rows)))
    by (apply sort_descending, risks_from_numbers, Hrows).
  split; [exact D |].
  split; [intros x; apply sort_stable |].
  cbn [fresh assemble top_risks all_risks] in *. unfold Arr.slice0.
  set (l := Arr.sort by_score (risks_from env 0 rows)) in *. clearbody l.
  unfold Spec.descending, Num.ge in D.
  assert (G : forall n x y, In x (firstn n l) -> In y (skipn n l) ->
                            (severity_score y <=? severity_score x)%float = true).
  { induction D as [| z r Hr IH Hz]; intros n x y Hx Hy.
    - rewrite firstn_nil in Hx. inversion Hx.
    - destruct n as [| n]; [inversion Hx |]. cbn [firstn skipn] in Hx, Hy.
      destruct Hx as [-> | Hx].
      + rewrite Forall_forall in Hz. apply Hz.
        rewrite <- (firstn_skipn n r). apply in_or_app. right. exact Hy.
      + exact (IH n x y Hx Hy). }
  exact (G 5%nat).
Qed.

Lemma computed_analysis_ranked_witness :
  let env := Sample.env_of [Sample.misc; Sample.perf] (fun _ _ => Sample.says_critical)
               None in
  Spec.descending (all_risks (fresh env [Sample.misc; Sample.perf])).
Proof.
  intros env.
  refine (proj1 (computed_analysis_ranked env (fresh env [Sample.misc; Sample.perf])
                   [Sample.misc; Sample.perf] _ eq_refl eq_refl _)).
  - rewrite invoke_returned. reflexivity.
  - repeat constructor.
Defined.

(** * The effects of an invocation *)

Lemma ai_calls_app (l l' : list event) : ai_calls (l ++ l') = ai_calls l ++ ai_calls l'.
Proof.
  induction l as [| ev l IH]; [reflexivity |].
  destruct ev; cbn [ai_calls app]; rewrite IH; reflexivity.
Qed.

Lemma ai_calls_loop (env : Env) (rows : list Cohort.t) :
  forall call,
    ai_calls (loop_events env call rows)
    = combine (seq call (List.length rows)) (map content_for rows).
Proof.
  induction rows as [| row rest IH]; intros call; [reflexivity |].
  cbn [loop_events ai_calls List.length seq map combine].
  rewrite ai_calls_app, IH.
  destruct (assigned_sentiment _); reflexivity.
Qed.

(** The whole of an invocation that reaches the store and finds it working. *)
Lemma invoke_computed (env : Env) (rows : list Cohort.t) :
  reaches_store env = true -> DB env = Some rows ->
  invoke env =
  match CACHE env with
  | None =>
      (Ok (fresh env rows),
       {| cache := None; events := DbQuery :: loop_events env 0 rows |})
  | Some ns =>
      let log := [CacheGet cacheKey; DbQuery] ++ loop_events env 0 rows
                 ++ [CachePut cacheKey (fresh env rows) 300] in
      if put_fails ns
      then (Throw CacheWriteError, {| cache := Some ns; events := log |})
      else (Ok (fresh env rows),
            {| cache := Some (written ns cacheKey (fresh env rows) 300);
               events := log |})
  end.
Proof.
  unfold reaches_store, invoke, analyzeSeverity, cache_get, cache_put, db_all,
    get_cache, set_cache, bind, emit, throw, ret, fresh.
  intros Hr Hdb. destruct (CACHE env) as [ns |]; cbn.
  - apply andb_true_iff in Hr. destruct Hr as [Hg Hm].
    apply negb_true_iff in Hg. rewrite Hg. cbn.
    destruct (Obj.own (entries ns) cacheKey); [discriminate |]. cbn.
    rewrite Hdb. cbn. rewrite analyze_rows_run. cbn.
    destruct (put_fails ns); reflexivity.
  - rewrite Hdb. cbn. rewrite analyze_rows_run. reflexivity.
Qed.

(** The whole of an invocation that reaches the store and finds it failing. *)
Lemma invoke_store_fails (env : Env) :
  reaches_store env = true -> DB env = None ->
  invoke env =
  (Throw StoreError,
   {| cache := CACHE env; events := read_events env ++ [DbQuery] |}).
Proof.
  unfold reaches_store, read_events, invoke, analyzeSeverity, cache_get, db_all,
    get_cache, bind, emit, throw, ret.
  intros Hr Hdb. destruct (CACHE env) as [ns |]; cbn.
  - apply andb_true_iff in Hr. destruct Hr as [Hg Hm].
    apply negb_true_iff in Hg. rewrite Hg. cbn.
    destruct (Obj.own (entries ns) cacheKey); [discriminate |]. cbn.
    rewrite Hdb. reflexivity.
  - rewrite Hdb. reflexivity.
Qed.

(** The whole of an invocation that does not reach the store. *)
Lemma invoke_stops_at_cache (env : Env) :
  reaches_store env = false ->
  exists outcome,
    invoke env = (outcome, {| cache := CACHE env; events := [CacheGet cacheKey] |}).
Proof.
  unfold reaches_store, invoke, analyzeSeverity, cache_get, get_cache, bind, emit,
    throw, ret.
  intros Hr. destruct (CACHE env) as [ns |]; [| discriminate]. cbn.
  destruct (get_fails ns); cbn; [eauto |].
  destruct (Obj.own (entries ns) cacheKey) as [[payload ttl] |]; [| discriminate].
  cbn. eauto.
Qed.

(** * A classifier failure, in the analysis *)





(** * The calls of the classifier *)

(** ** Strings as UTF-16 code units *)

Module UnitFacts.

Local Open Scope N_scope.

Lemma byte_value (n : N) : n < 256 -> N_of_ascii (ascii_of_N n) = n.
Proof. apply N_ascii_embedding. Qed.

Ltac arith := zify; Z.to_euclidean_division_equations; lia.

(** Decoding what was encoded gives the code unit back. *)
Lemma units_encode (u : N) (rest : string) :
  u < 65536 -> Str.units (Str.encode u rest) = u :: Str.units rest.
Proof.
  intros H. unfold Str.encode.
  destruct (N.ltb_spec u 128) as [H1 | H1].
  - cbn [Str.units]. rewrite byte_value by lia.
    destruct (N.ltb_spec u 192); [reflexivity | lia].
  - destruct (N.ltb_spec u 2048) as [H2 | H2].
    + cbn [Str.units]. unfold Str.continuation. rewrite !byte_value by arith.
      destruct (N.ltb_spec (192 + u / 64) 192); [arith |].
      destruct (N.ltb_spec (192 + u / 64) 224); [| arith].
      f_equal. arith.
    + destruct (N.ltb_spec u 65536) as [H3 | H3]; [| lia].
      cbn [Str.units]. unfold Str.continuation. rewrite !byte_value by arith.
      destruct (N.ltb_spec (224 + u / 4096) 192); [arith |].
      destruct (N.ltb_spec (224 + u / 4096) 224); [arith |].
      destruct (N.ltb_spec (224 + u / 4096) 240); [| arith].
      f_equal. arith.
Qed.

(** Decoding an encoded surrogate pair gives the two surrogates back. *)
Lemma units_encode_pair (u v : N) (rest : string) :
  Str.is_high u = true -> Str.is_low v = true ->
  Str.units (Str.encode (65536 + (u - 55296) * 1024 + (v - 56320)) rest)
  = u :: v :: Str.units rest.
Proof.
  unfold Str.is_high, Str.is_low. intros Hu Hv.
  apply andb_true_iff in Hu, Hv. destruct Hu as [Hu1 Hu2], Hv as [Hv1 Hv2].
  apply N.leb_le in Hu1, Hv1. apply N.ltb_lt in Hu2, Hv2.
  set (p := 65536 + (u - 55296) * 1024 + (v - 56320)).
  assert (Hp : 65536 <= p < 1114112) by (unfold p; lia).
  unfold Str.encode.
  destruct (N.ltb_spec p 128); [lia |].
  destruct (N.ltb_spec p 2048); [lia |].
  destruct (N.ltb_spec p 65536); [lia |].
  cbn [Str.units]. unfold Str.continuation. rewrite !byte_value by arith.
  destruct (N.ltb_spec (240 + p / 262144) 192); [arith |].
  destruct (N.ltb_spec (240 + p / 262144) 224); [arith |].
  destruct (N.ltb_spec (240 + p / 262144) 240); [arith |].
  cbv zeta.
  replace ((240 + p / 262144) mod 8 * 262144
           + (128 + (p / 4096) mod 64) mod 64 * 4096
           + (128 + (p / 64) mod 64) mod 64 * 64
           + (128 + p mod 64) mod 64 - 65536)
    with ((u - 55296) * 1024 + (v - 56320)) by (unfold p in *; arith).
  f_equal; [arith |]. f_equal. arith.
Qed.

Lemma of_units_pair (u v : N) (r : list N) :
  Str.of_units (u :: v :: r) =
  if Str.is_high u && Str.is_low v
  then Str.encode (65536 + (u - 55296) * 1024 + (v - 56320)) (Str.of_units r)
  else Str.encode u (Str.of_units (v :: r)).
Proof. reflexivity. Qed.

(** The code units of the string made of [l] are [l]. *)
Lemma units_of_units (l : list N) :
  Forall (fun u => u < 65536) l -> Str.units (Str.of_units l) = l.
Proof.
  assert (G : forall n l, (List.length l <= n)%nat ->
                          Forall (fun u => u < 65536) l ->
                          Str.units (Str.of_units l) = l).
  { clear l. induction n as [| n IH]; intros l Hn Hl.
    - destruct l; [reflexivity | simpl in Hn; lia].
    - destruct l as [| u [| v r]]; [reflexivity | |].
      + inversion Hl; subst. cbn [Str.of_units]. rewrite units_encode by assumption.
        reflexivity.
      + inversion Hl as [| ? ? Hu Hl']; subst. rewrite of_units_pair.
        destruct (Str.is_high u && Str.is_low v) eqn:E.
        * apply andb_true_iff in E. destruct E as [Eu Ev].
          rewrite (units_encode_pair u v _ Eu Ev).
          inversion Hl' as [| ? ? Hv Hr]; subst.
          rewrite (IH r) by (simpl in Hn; lia || assumption). reflexivity.
        * rewrite units_encode by assumption.
          rewrite (IH (v :: r)) by (simpl in *; lia || assumption). reflexivity. }
  apply (G (List.length l)). lia.
Qed.

Lemma firstn_valid (n : nat) (l : list N) :
  Forall (fun u => u < 65536) l -> Forall (fun u => u < 65536) (firstn n l).
Proof.
  intros H. revert n. induction H as [| u l Hu _ IH]; intros [| n]; cbn [firstn];
    constructor; auto.
Qed.

(** Cutting the string made of [l] gives the string made of the first
    units of [l]. *)
Lemma substring0_of_units (n : nat) (l : list N) :
  Forall (fun u => u < 65536) l ->
  Str.substring0 n (Str.of_units l) = Str.of_units (firstn n l).
Proof. intros H. unfold Str.substring0. rewrite units_of_units by exact H. reflexivity. Qed.

End UnitFacts.

(** X7. The classifier is called once for each row of the store, in the order
    of the rows, and never again: there is no retry after a failure. It is
    not called at all when the analysis comes from the cache, when the cache
    read fails, or when the query fails. The content of a call is the fixed
    instruction followed by the first 800 UTF-16 code units of the row's
    samples, all of them when there are fewer. *)
Theorem classifier_called_once_per_row (env : Env) :
  ai_calls (events (snd (invoke env))) =
    (if reaches_store env then
       match DB env with
       | Some rows =>
           combine (seq 0 (List.length rows))
             (map (fun row => prompt (Str.substring0 800 (Cohort.samples row))) rows)
       | None => []
       end
     else []) /\
  (forall samples, prompt samples = (prompt "" ++ samples)%string) /\
  (forall l : list N,
     Forall (fun u => (u < 65536)%N) l ->
     Str.substring0 800 (Str.of_units l) = Str.of_units (firstn 800 l) /\
     Str.units (Str.substring0 800 (Str.of_units l)) = firstn 800 l /\
     ((List.length l <= 800)%nat -> Str.substring0 800 (Str.of_units l) = Str.of_units l)).
Proof.
  split; [| split].
  - change (fun row => prompt (Str.substring0 800 (Cohort.samples row)))
      with content_for.
    destruct (reaches_store env) eqn:Hr.
    + destruct (DB env) as [rows |] eqn:Hdb.
      * rewrite (invoke_computed env rows Hr Hdb).
        destruct (CACHE env) as [ns |].
        -- cbv zeta. destruct (put_fails ns); cbn [snd events];
             rewrite !ai_calls_app, ai_calls_loop; cbn [ai_calls app];
             rewrite app_nil_r; reflexivity.
        -- cbn [snd events ai_calls]. apply ai_calls_loop.
      * rewrite (invoke_store_fails env Hr Hdb). cbn [snd events].
        rewrite ai_calls_app. unfold read_events. destruct (CACHE env); reflexivity.
    + destruct (invoke_stops_at_cache env Hr) as [outcome ->]. reflexivity.
  - intros samples. unfold prompt.
    rewrite !StrFacts.append_assoc. reflexivity.
  - intros l Hl.
    pose proof (UnitFacts.substring0_of_units 800 l Hl) as E.
    split; [exact E |]. split.
    + rewrite E. apply UnitFacts.units_of_units, UnitFacts.firstn_valid, Hl.
    + intros Hlen. rewrite E, firstn_all2 by exact Hlen. reflexivity.
Qed.

(** X8. When the query fails the invocation fails with the store's error right
    after it: nothing is classified, nothing is written to the cache, and
    no partial analysis is returned. *)
Theorem store_failure_is_fatal (env : Env) :
  DB env = None -> reaches_store env = true ->
  invoke env =
    (Throw StoreError,
     {| cache := CACHE env; events := read_events env ++ [DbQuery] |}) /\
  ai_calls (events (snd (invoke env))) = [] /\
  forall key value ttl, ~ In (CachePut key value ttl) (events (snd (invoke env))).
Proof.
  intros Hdb Hr. rewrite (invoke_store_fails env Hr Hdb). cbn [snd events].
  split; [reflexivity |]. unfold read_events.
  destruct (CACHE env); cbn; (split; [reflexivity |]);
    intros key value ttl H; repeat destruct H as [H | H]; try discriminate H; exact H.
Qed.

Lemma store_failure_is_fatal_witness :
  fst (invoke {| DB := None; AI := fun _ _ => Sample.says_critical;
                 CACHE := Some Sample.healthy_cache; now := "" |})
  = Throw StoreError.
Proof.
  rewrite (proj1 (store_failure_is_fatal
                    {| DB := None; AI := fun _ _ => Sample.says_critical;
                       CACHE := Some Sample.healthy_cache; now := "" |}
                    eq_refl eq_refl)).
  reflexivity.
Defined.

(** X9. Cache round trip. After an invocation that computed and wrote its
    analysis, an invocation on the cache it left returns that analysis with
    [cached] true and nothing else changed, whatever the store and the
    classifier have become, and only reads the cache. *)
Theorem cache_round_trip (env env' : Env) (ns : KVNamespace) (rows : list Cohort.t) :
  CACHE env = Some ns ->
  reaches_store env = true ->
  put_fails ns = false ->
  DB env = Some rows ->
  CACHE env' = cache (snd (invoke env)) ->
  fst (invoke env) = Ok (fresh env rows) /\
  invoke env' =
    (Ok (with_cached_true (fresh env rows)),
     {| cache := CACHE env'; events := [CacheGet "analysis:latest"] |}) /\
  all_risks (with_cached_true (fresh env rows)) = all_risks (fresh env rows) /\
  top_risks (with_cached_true (fresh env rows)) = top_risks (fresh env rows).
Proof.
  intros Hkv Hr Hput Hdb Hkv'.
  rewrite (invoke_computed env rows Hr Hdb), Hkv in *. cbv zeta in *.
  rewrite Hput in *. cbn [fst snd cache] in *.
  split; [reflexivity |]. split; [| split; reflexivity].
  assert (G : get_fails ns = false).
  { unfold reaches_store in Hr. rewrite Hkv in Hr.
    apply andb_true_iff in Hr. destruct Hr as [Hg _].
    apply negb_true_iff in Hg. exact Hg. }
  unfold invoke, analyzeSeverity, cache_get, get_cache, bind, emit, throw, ret.
  rewrite Hkv'. cbn. rewrite G. cbn. reflexivity.
Qed.

Lemma cache_round_trip_witness :
  let env := Sample.env_of [Sample.misc; Sample.perf] (fun _ _ => Sample.says_critical)
               (Some Sample.healthy_cache) in
  let env' := {| DB := None; AI := fun _ _ => AiRejects;
                 CACHE := cache (snd (invoke env)); now := "later" |} in
  fst (invoke env') = Ok (with_cached_true (fresh env [Sample.misc; Sample.perf])).
Proof.
  intros env env'.
  destruct (cache_round_trip env env' Sample.healthy_cache [Sample.misc; Sample.perf]
              eq_refl eq_refl eq_refl eq_refl eq_refl) as (_ & E & _).
  rewrite E. reflexivity.
Defined.

(** * The view of the top risks *)

Lemma getTopRisks_run (env : Env) (timestamp : string) (w : World) :
  getTopRisks env timestamp w =
  match analyzeSeverity env w with
  | (Ok data, w') =>
      (Ok {| timestamp := timestamp;
             critical_alerts := Arr.slice0 3 (top_risks data);
             total_critical := critical_count data;
             summary_recommendation := first_recommendation (top_risks data) |}, w')
  | (Throw e, w') => (Throw e, w')
  end.
Proof.
  unfold getTopRisks, bind, ret. destruct (analyzeSeverity env w) as [[data | e] w'];
    reflexivity.
Qed.

(** The view fails as the invocation fails, and returns when it returns. *)
Lemma top_risks_view_of_analysis_aux (env : Env) (timestamp : string) :
  match fst (invoke env) with
  | Ok _ => exists view, fst (top_risks_view env timestamp) = Ok view
  | Throw e => fst (top_risks_view env timestamp) = Throw e
  end.
Proof.
  unfold top_risks_view, invoke. rewrite getTopRisks_run.
  destruct (analyzeSeverity env _) as [[data | e] w']; cbn [fst]; eauto.
Qed.

(** A list in descending order: everything in a prefix scores at least as
    much as everything behind it. *)
Lemma descending_prefix (l : list RiskAnalysis) :
  Spec.descending l ->
  forall n x y, In x (firstn n l) -> In y (skipn n l) ->
                (severity_score y <=? severity_score x)%float = true.
Proof.
  unfold Spec.descending, Num.ge.
  induction 1 as [| z r Hr IH Hz]; intros n x y Hx Hy.
  - rewrite firstn_nil in Hx. inversion Hx.
  - destruct n as [| n]; [inversion Hx |]. cbn [firstn skipn] in Hx, Hy.
    destruct Hx as [-> | Hx].
    + rewrite Forall_forall in Hz. apply Hz.
      rewrite <- (firstn_skipn n r). apply in_or_app. right. exact Hy.
    + exact (IH n x y Hx Hy).
Qed.

(** X10. The view runs one analysis and nothing more: it leaves the log and the
    cache that one invocation leaves, and fails exactly when the invocation
    fails, with the same error. From an analysis it takes the first three
    of [top_risks] as alerts, reports [critical_count] as it is (all the
    records above 100, listed or not), and as its recommendation the one of
    the first record; the fixed text [No critical issues detected] stands
    in only when there is no record at all, whatever the critical count. *)
Theorem top_risks_view_of_analysis (env : Env) (timestamp : string) :
  snd (top_risks_view env timestamp) = snd (invoke env) /\
  match fst (invoke env) with
  | Throw e => fst (top_risks_view env timestamp) = Throw e
  | Ok data =>
      exists view,
        fst (top_risks_view env timestamp) = Ok view /\
        critical_alerts view = firstn 3 (top_risks data) /\
        (List.length (critical_alerts view) <= 3)%nat /\
        total_critical view = critical_count data /\
        (top_risks data = [] ->
         summary_recommendation view = Advice "No critical issues detected") /\
        (forall risk rest s,
           top_risks data = risk :: rest -> recommendation risk = Text s -> s <> "" ->
           summary_recommendation view = Advice s)
  end.
Proof.
  unfold top_risks_view, invoke. rewrite getTopRisks_run.
  destruct (analyzeSeverity env _) as [[data | e] w']; cbn [fst snd];
    (split; [reflexivity |]); [| reflexivity].
  eexists. split; [reflexivity |]. cbn [critical_alerts total_critical summary_recommendation].
  split; [reflexivity |]. split.
  { unfold Arr.slice0. rewrite length_firstn. apply Nat.le_min_l. }
  split; [reflexivity |]. split.
  - intros ->. reflexivity.
  - intros risk rest s -> Hs Hne. cbn [first_recommendation]. rewrite Hs. cbn [parse_ref].
    destruct (String.eqb s "") eqn:E; [| reflexivity].
    apply String.eqb_eq in E. contradiction.
Qed.

(** X11. On a freshly computed analysis the alerts are the first three of
    [all_risks], one per row when there are fewer; and when no category of
    the store is the name of a member of [Object.prototype] they are the
    three highest scores. *)
Theorem top_risks_view_of_computed
    (env : Env) (timestamp : string) (rows : list Cohort.t) :
  reaches_store env = true ->
  DB env = Some rows ->
  match CACHE env with Some ns => put_fails ns = false | None => True end ->
  exists view,
    fst (top_risks_view env timestamp) = Ok view /\
    critical_alerts view = firstn 3 (all_risks (fresh env rows)) /\
    List.length (critical_alerts view) = Nat.min 3 (List.length rows) /\
    (rows = [] -> summary_recommendation view = Advice "No critical issues detected") /\
    (Forall (fun row => Obj.inherited (Cohort.category row) = false) rows ->
     forall x y,
       In x (critical_alerts view) -> In y (skipn 3 (all_risks (fresh env rows))) ->
       (severity_score y <=? severity_score x)%float = true).
Proof.
  intros Hr Hdb Hput. unfold top_risks_view. rewrite getTopRisks_run.
  fold (invoke env). rewrite (invoke_computed env rows Hr Hdb).
  assert (E : exists w',
             match CACHE env with
             | Some ns =>
                 let log := [CacheGet cacheKey; DbQuery] ++ loop_events env 0 rows
                            ++ [CachePut cacheKey (fresh env rows) 300] in
                 if put_fails ns
                 then (Throw CacheWriteError, {| cache := Some ns; events := log |})
                 else (Ok (fresh env rows),
                       {| cache := Some (written ns cacheKey (fresh env rows) 300);
                          events := log |})
             | None =>
                 (Ok (fresh env rows),
                  {| cache := None; events := DbQuery :: loop_events env 0 rows |})
             end = (Ok (fresh env rows), w')).
  { destruct (CACHE env) as [ns |]; [rewrite Hput |]; eauto. }
  destruct E as [w' ->]. eexists. split; [reflexivity |].
  cbn [critical_alerts summary_recommendation].
  assert (T : Arr.slice0 3 (top_risks (fresh env rows))
              = firstn 3 (all_risks (fresh env rows))).
  { unfold fresh, assemble, Arr.slice0. cbn [top_risks all_risks].
    rewrite firstn_firstn. reflexivity. }
  rewrite T. split; [reflexivity |]. split; [| split].
  - rewrite length_firstn. unfold fresh, assemble. cbn [all_risks].
    rewrite sort_length, risks_from_length. reflexivity.
  - intros ->. reflexivity.
  - intros Hrows. apply descending_prefix.
    unfold fresh, assemble. cbn [all_risks].
    apply sort_descending, risks_from_numbers, Hrows.
Qed.

Lemma top_risks_view_of_computed_witness :
  let env := Sample.env_of [Sample.misc; Sample.perf] (fun _ _ => Sample.says_critical)
               None in
  exists view, fst (top_risks_view env "t") = Ok view /\
               List.length (critical_alerts view) = 2%nat.
Proof.
  intros env.
  destruct (top_risks_view_of_computed env "t" [Sample.misc; Sample.perf]
              eq_refl eq_refl I) as (view & E & _ & L & _).
  exists view. split; [exact E | exact L].
Defined.

(** * Headers and routing *)

Lemma own_remove_key {A} (o : list (string * A)) (k k' : string) :
  Obj.own (remove_key k o) k' = if String.eqb k k' then None else Obj.own o k'.
Proof.
  induction o as [| [k0 v] o IH]; cbn [remove_key filter Obj.own fst].
  - destruct (String.eqb k k'); reflexivity.
  - fold (remove_key k o). destruct (String.eqb k0 k) eqn:E0; cbn [negb].
    + apply String.eqb_eq in E0. subst k0. rewrite IH.
      destruct (String.eqb k k'); reflexivity.
    + cbn [Obj.own]. rewrite IH. destruct (String.eqb k0 k') eqn:E1; [| reflexivity].
      apply String.eqb_eq in E1. subst k0. rewrite String.eqb_sym, E0. reflexivity.
Qed.

(** Reading a header after setting one: names are compared without case. *)
Lemma headers_get_set (h : Headers) (name value name' : string) :
  headers_get (headers_set h name value) name' =
  if String.eqb (Str.toLowerCase name) (Str.toLowerCase name')
  then Some value
  else headers_get h name'.
Proof.
  unfold headers_get, headers_set. cbn [Obj.own].
  destruct (String.eqb _ _) eqn:E; [reflexivity |].
  rewrite own_remove_key, E. reflexivity.
Qed.

Lemma headers_get_cors (h : Headers) (name : string) :
  headers_get (fold_left (fun h kv => headers_set h (fst kv) (snd kv)) corsHeaders h)
    name =
  if String.eqb "access-control-allow-headers" (Str.toLowerCase name)
  then Some "Content-Type"
  else if String.eqb "access-control-allow-methods" (Str.toLowerCase name)
  then Some "GET, POST, OPTIONS"
  else if String.eqb "access-control-allow-origin" (Str.toLowerCase name)
  then Some "*"
  else headers_get h name.
Proof.
  unfold corsHeaders. cbn [fold_left fst snd]. rewrite !headers_get_set. reflexivity.
Qed.

(** X14. [addCorsHeaders] sets the three CORS headers, replacing values the
    response had under those names in any case; it leaves every other
    header, the status, the status text and the body as they were; and
    adding the headers twice is adding them once. *)
Theorem addCorsHeaders_sets_three (response : Response) :
  let r := addCorsHeaders response corsHeaders in
  headers_get (headers r) "Access-Control-Allow-Origin" = Some "*" /\
  headers_get (headers r) "Access-Control-Allow-Methods" = Some "GET, POST, OPTIONS" /\
  headers_get (headers r) "Access-Control-Allow-Headers" = Some "Content-Type" /\
  (forall name,
     ~ In (Str.toLowerCase name)
          [ "access-control-allow-origin"; "access-control-allow-methods";
            "access-control-allow-headers" ] ->
     headers_get (headers r) name = headers_get (headers response) name) /\
  (status r, statusText r, body r)
    = (status response, statusText response, body response) /\
  (forall name,
     headers_get (headers (addCorsHeaders r corsHeaders)) name
     = headers_get (headers r) name).
Proof.
  cbv zeta. unfold addCorsHeaders. cbn [headers status statusText body].
  split; [rewrite headers_get_cors; reflexivity |].
  split; [rewrite headers_get_cors; reflexivity |].
  split; [rewrite headers_get_cors; reflexivity |].
  split; [| split; [reflexivity |]].
  - intros name Hn. rewrite headers_get_cors.
    destruct (String.eqb "access-control-allow-headers" _) eqn:E1.
    { apply String.eqb_eq in E1. exfalso. apply Hn. rewrite <- E1. cbn. auto. }
    destruct (String.eqb "access-control-allow-methods" _) eqn:E2.
    { apply String.eqb_eq in E2. exfalso. apply Hn. rewrite <- E2. cbn. auto. }
    destruct (String.eqb "access-control-allow-origin" _) eqn:E3.
    { apply String.eqb_eq in E3. exfalso. apply Hn. rewrite <- E3. cbn. auto. }
    reflexivity.
  - intros name. rewrite (headers_get_cors _ name), (headers_get_cors _ name).
    destruct (String.eqb "access-control-allow-headers" (Str.toLowerCase name));
      [reflexivity |].
    destruct (String.eqb "access-control-allow-methods" (Str.toLowerCase name));
      [reflexivity |].
    destruct (String.eqb "access-control-allow-origin" (Str.toLowerCase name));
      reflexivity.
Qed.

Lemma fetch_cases (request : Request) (env : Env) (q : Queries) (timestamp : string) :
  forall P : M Response -> Prop,
    (method request = "OPTIONS" -> P (ret (Response_new NoBody corsHeaders))) ->
    (method request <> "OPTIONS" -> pathname request = "/api/feedback" ->
     P (bind (getFeedback q) (fun r => ret (addCorsHeaders r corsHeaders)))) ->
    (method request <> "OPTIONS" -> pathname request = "/api/analyze" ->
     P (bind (analyzeSeverity env)
          (fun a => ret (addCorsHeaders (Response_json (AnalysisJson a)) corsHeaders)))) ->
    (method request <> "OPTIONS" -> pathname request = "/api/risks" ->
     P (bind (getTopRisks env timestamp)
          (fun t => ret (addCorsHeaders (Response_json (TopRisksJson t)) corsHeaders)))) ->
    (method request <> "OPTIONS" -> pathname request = "/api/trends" ->
     P (bind (getTrends q) (fun r => ret (addCorsHeaders r corsHeaders)))) ->
    (method request <> "OPTIONS" -> pathname request = "/api/docs" ->
     P (ret (Response_new OpenAPISpec
               (("Content-Type", "application/json") :: corsHeaders)))) ->
    (method request <> "OPTIONS" -> ~ In (pathname request) ("/api/docs" :: api_paths) ->
     P (ret (Response_new DashboardHTML [("Content-Type", "text/html")]))) ->
    P (fetch request env q timestamp).
Proof.
  intros P H0 H1 H2 H3 H4 H5 H6. unfold fetch.
  destruct (String.eqb (method request) "OPTIONS") eqn:Em.
  { apply H0, String.eqb_eq, Em. }
  apply String.eqb_neq in Em.
  destruct (String.eqb (pathname request) "/api/feedback") eqn:E1.
  { apply H1; [exact Em | apply String.eqb_eq, E1]. }
  destruct (String.eqb (pathname request) "/api/analyze") eqn:E2.
  { apply H2; [exact Em | apply String.eqb_eq, E2]. }
  destruct (String.eqb (pathname request) "/api/risks") eqn:E3.
  { apply H3; [exact Em | apply String.eqb_eq, E3]. }
  destruct (String.eqb (pathname request) "/api/trends") eqn:E4.
  { apply H4; [exact Em | apply String.eqb_eq, E4]. }
  destruct (String.eqb (pathname request) "/api/docs") eqn:E5.
  { apply H5; [exact Em | apply String.eqb_eq, E5]. }
  apply H6; [exact Em |].
  apply String.eqb_neq in E1, E2, E3, E4, E5.
  unfold api_paths. cbn [In]. intuition congruence.
Qed.

(** X15. A preflight request and a request for anything but the five API paths
    touch neither the cache nor the store nor the classifier and cannot
    fail: [OPTIONS] on any path gets an empty response with the CORS
    headers, and an unknown path gets the dashboard page, served as
    [text/html] with status 200 and without CORS headers; there is no 404.
    Paths match exactly. *)
Theorem fetch_without_effects
    (request : Request) (env : Env) (q : Queries) (timestamp : string) :
  method request = "OPTIONS" \/ ~ In (pathname request) ("/api/docs" :: api_paths) ->
  exists response,
    serve request env q timestamp
      = (Ok response, {| cache := CACHE env; events := [] |}) /\
    status response = 200%Z /\
    (method request = "OPTIONS" ->
     body response = NoBody /\
     headers_get (headers response) "Access-Control-Allow-Origin" = Some "*") /\
    (method request <> "OPTIONS" ->
     body response = DashboardHTML /\
     headers_get (headers response) "Content-Type" = Some "text/html" /\
     headers_get (headers response) "Access-Control-Allow-Origin" = None).
Proof.
  intros H. unfold serve. pattern (fetch request env q timestamp).
  apply fetch_cases; intros Hm; try (intros Hp);
    try (exfalso; destruct H as [H | H]; [exact (Hm H) |];
         apply H; rewrite Hp; unfold api_paths; cbn; auto 10; fail).
  - eexists. split; [reflexivity |]. split; [reflexivity |]. split.
    + intros _. split; reflexivity.
    + intros Hn. contradiction.
  - eexists. split; [reflexivity |]. split; [reflexivity |]. split.
    + intros Ho. contradiction.
    + intros _. repeat split.
Qed.

Lemma fetch_without_effects_witness :
  exists response,
    serve {| method := "GET"; pathname := "/api/analyze/" |}
      (Sample.env_of [] (fun _ _ => AiRejects) None)
      {| feedback_rows := None; trend_rows := None |} "t"
    = (Ok response, {| cache := None; events := [] |}).
Proof.
  destruct (fetch_without_effects {| method := "GET"; pathname := "/api/analyze/" |}
              (Sample.env_of [] (fun _ _ => AiRejects) None)
              {| feedback_rows := None; trend_rows := None |} "t")
    as (response & E & _).
  - right. unfold api_paths. cbn. intuition discriminate.
  - exists response. exact E.
Defined.

Lemma query_run {A} (rows : option A) (w : World) :
  query rows w =
  (match rows with Some r => Ok r | None => Throw StoreError end,
   {| cache := cache w; events := events w ++ [DbQuery] |}).
Proof. unfold query, bind, emit, throw, ret. destruct rows; reflexivity. Qed.

(** What a served request returns, route by route. *)
Lemma serve_result (request : Request) (env : Env) (q : Queries) (timestamp : string) :
  fst (serve request env q timestamp) =
  if String.eqb (method request) "OPTIONS" then Ok (Response_new NoBody corsHeaders)
  else if String.eqb (pathname request) "/api/feedback" then
    match feedback_rows q with
    | Some rows => Ok (addCorsHeaders (Response_json (FeedbackJson rows)) corsHeaders)
    | None => Throw StoreError
    end
  else if String.eqb (pathname request) "/api/analyze" then
    match fst (invoke env) with
    | Ok a => Ok (addCorsHeaders (Response_json (AnalysisJson a)) corsHeaders)
    | Throw e => Throw e
    end
  else if String.eqb (pathname request) "/api/risks" then
    match fst (top_risks_view env timestamp) with
    | Ok t => Ok (addCorsHeaders (Response_json (TopRisksJson t)) corsHeaders)
    | Throw e => Throw e
    end
  else if String.eqb (pathname request) "/api/trends" then
    match trend_rows q with
    | Some rows =>
        Ok (addCorsHeaders
              (Response_json
                 (TrendsJson rows "Velocity analysis shows complaint patterns over time"))
              corsHeaders)
    | None => Throw StoreError
    end
  else if String.eqb (pathname request) "/api/docs" then
    Ok (Response_new OpenAPISpec (("Content-Type", "application/json") :: corsHeaders))
  else Ok (Response_new DashboardHTML [("Content-Type", "text/html")]).
Proof.
  unfold serve, fetch.
  destruct (String.eqb (method request) "OPTIONS"); [reflexivity |].
  destruct (String.eqb (pathname request) "/api/feedback").
  { unfold getFeedback, bind at 1 2. rewrite query_run.
    destruct (feedback_rows q); reflexivity. }
  destruct (String.eqb (pathname request) "/api/analyze").
  { unfold bind, invoke. destruct (analyzeSeverity env _) as [[a | e] w']; reflexivity. }
  destruct (String.eqb (pathname request) "/api/risks").
  { unfold bind, top_risks_view.
    destruct (getTopRisks env timestamp _) as [[t | e] w']; reflexivity. }
  destruct (String.eqb (pathname request) "/api/trends").
  { unfold getTrends, bind at 1 2. rewrite query_run.
    destruct (trend_rows q); reflexivity. }
  destruct (String.eqb (pathname request) "/api/docs"); reflexivity.
Qed.

(** X16. Every response the worker returns has status 200; every one but the
    dashboard page carries the three CORS headers; and every one with a
    JSON body is served as [application/json]. *)
Theorem fetch_responses
    (request : Request) (env : Env) (q : Queries) (timestamp : string)
    (response : Response) :
  fst (serve request env q timestamp) = Ok response ->
  status response = 200%Z /\
  (body response <> DashboardHTML ->
   headers_get (headers response) "Access-Control-Allow-Origin" = Some "*" /\
   headers_get (headers response) "Access-Control-Allow-Methods"
     = Some "GET, POST, OPTIONS" /\
   headers_get (headers response) "Access-Control-Allow-Headers" = Some "Content-Type") /\
  headers_get (headers response) "Content-Type" =
    match body response with
    | NoBody => None
    | DashboardHTML => Some "text/html"
    | _ => Some "application/json"
    end.
Proof.
  rewrite serve_result. intros H.
  assert (J : forall data,
             data <> DashboardHTML -> data <> NoBody ->
             let r := addCorsHeaders (Response_json data) corsHeaders in
             status r = 200%Z /\
             (body r <> DashboardHTML ->
              headers_get (headers r) "Access-Control-Allow-Origin" = Some "*" /\
              headers_get (headers r) "Access-Control-Allow-Methods"
                = Some "GET, POST, OPTIONS" /\
              headers_get (headers r) "Access-Control-Allow-Headers"
                = Some "Content-Type") /\
             headers_get (headers r) "Content-Type" =
               match body r with
               | NoBody => None
               | DashboardHTML => Some "text/html"
               | _ => Some "application/json"
               end).
  { intros data Hd Hn. cbv zeta. split; [reflexivity |]. split.
    - intros _. repeat split.
    - cbn [addCorsHeaders body]. destruct data; try reflexivity; contradiction. }
  destruct (String.eqb (method request) "OPTIONS").
  { injection H as <-. split; [reflexivity |]. split; [| reflexivity].
    intros _. repeat split. }
  destruct (String.eqb (pathname request) "/api/feedback").
  { destruct (feedback_rows q); [| discriminate]. injection H as <-.
    apply J; discriminate. }
  destruct (String.eqb (pathname request) "/api/analyze").
  { destruct (fst (invoke env)); [| discriminate]. injection H as <-.
    apply J; discriminate. }
  destruct (String.eqb (pathname request) "/api/risks").
  { destruct (fst (top_risks_view env timestamp)); [| discriminate]. injection H as <-.
    apply J; discriminate. }
  destruct (String.eqb (pathname request) "/api/trends").
  { destruct (trend_rows q); [| discriminate]. injection H as <-.
    apply J; discriminate. }
  destruct (String.eqb (pathname request) "/api/docs").
  { injection H as <-. split; [reflexivity |]. split; [| reflexivity].
    intros _. repeat split. }
  injection H as <-. split; [reflexivity |]. split; [| reflexivity].
  intros N. contradiction N. reflexivity.
Qed.

Lemma fetch_responses_witness :
  let served := fst (serve {| method := "GET"; pathname := "/api/analyze" |}
                       (Sample.env_of [Sample.misc] (fun _ _ => Sample.says_critical) None)
                       {| feedback_rows := None; trend_rows := None |} "t") in
  exists response, served = Ok response /\ status response = 200%Z.
Proof.
  intros served. unfold served. eexists. split.
  - rewrite serve_result, invoke_returned. reflexivity.
  - apply (fetch_responses {| method := "GET"; pathname := "/api/analyze" |}
             (Sample.env_of [Sample.misc] (fun _ _ => Sample.says_critical) None)
             {| feedback_rows := None; trend_rows := None |} "t").
    rewrite serve_result, invoke_returned. reflexivity.
Defined.

(** X17. The worker catches nothing: a request fails exactly when the handler of
    one of the four data routes fails, with the handler's error, and those
    are a failing query for the listings and a failing invocation for the
    analysis and its view. *)
Theorem fetch_failures
    (request : Request) (env : Env) (q : Queries) (timestamp : string) (e : error) :
  fst (serve request env q timestamp) = Throw e <->
  method request <> "OPTIONS" /\
  ((pathname request = "/api/feedback" /\ feedback_rows q = None /\ e = StoreError) \/
   (pathname request = "/api/analyze" /\ fst (invoke env) = Throw e) \/
   (pathname request = "/api/risks" /\ fst (invoke env) = Throw e) \/
   (pathname request = "/api/trends" /\ trend_rows q = None /\ e = StoreError)).
Proof.
  rewrite serve_result.
  pose proof (top_risks_view_of_analysis_aux env timestamp) as V.
  destruct (String.eqb (method request) "OPTIONS") eqn:Em.
  { apply String.eqb_eq in Em. split; [discriminate | tauto]. }
  apply String.eqb_neq in Em.
  destruct (String.eqb (pathname request) "/api/feedback") eqn:E1.
  { apply String.eqb_eq in E1. rewrite E1. split.
    - destruct (feedback_rows q); [discriminate |]. intros [= <-]. auto.
    - intros [_ [(_ & -> & ->) | [(D & _) | [(D & _) | (D & _)]]]];
        [reflexivity | discriminate D ..]. }
  destruct (String.eqb (pathname request) "/api/analyze") eqn:E2.
  { apply String.eqb_eq in E2. rewrite E2. split.
    - destruct (fst (invoke env)); [discriminate |]. intros [= <-]. auto 6.
    - intros [_ [(D & _) | [(_ & ->) | [(D & _) | (D & _)]]]];
        [discriminate D | reflexivity | discriminate D ..]. }
  destruct (String.eqb (pathname request) "/api/risks") eqn:E3.
  { apply String.eqb_eq in E3. rewrite E3. split.
    - destruct (fst (invoke env)) as [a | e0].
      + destruct V as [t ->]. discriminate.
      + rewrite V. intros [= <-]. auto 8.
    - intros [_ [(D & _) | [(D & _) | [(_ & Hi) | (D & _)]]]];
        try discriminate D. rewrite Hi in V. rewrite V. reflexivity. }
  destruct (String.eqb (pathname request) "/api/trends") eqn:E4.
  { apply String.eqb_eq in E4. rewrite E4. split.
    - destruct (trend_rows q); [discriminate |]. intros [= <-]. auto 8.
    - intros [_ [(D & _) | [(D & _) | [(D & _) | (_ & -> & ->)]]]];
        [discriminate D .. | reflexivity]. }
  apply String.eqb_neq in E1, E2, E3, E4.
  destruct (String.eqb (pathname request) "/api/docs"); split;
    try discriminate; intros [_ [(D & _) | [(D & _) | [(D & _) | (D & _)]]]];
    congruence.
Qed.

(** * Recommendations *)

Section Recommendations.
Import StrFacts.
Local Open Scope string_scope.

Lemma startsWith_append (n b : string) : Str.startsWith n (n ++ b) = true.
Proof.
  induction n as [| c n IH]; cbn; [reflexivity |].
  rewrite Ascii.eqb_refl, IH. reflexivity.
Qed.

Lemma includes_cons (n : string) (c : ascii) (s : string) :
  Str.includes n (String c s) = Str.startsWith n (String c s) || Str.includes n s.
Proof. reflexivity. Qed.

Lemma includes_prefix (n b : string) : Str.includes n (n ++ b) = true.
Proof.
  destruct (n ++ b) as [| c s] eqn:E.
  - destruct n; [reflexivity | discriminate].
  - rewrite includes_cons, <- E, startsWith_append. reflexivity.
Qed.

Lemma includes_append (a n b : string) : Str.includes n (a ++ n ++ b) = true.
Proof.
  induction a as [| c a IH]; cbn [append].
  - apply includes_prefix.
  - rewrite includes_cons, IH. apply orb_true_r.
Qed.

Lemma includes_suffix (a n : string) : Str.includes n (a ++ n) = true.
Proof.
  rewrite <- (append_empty_r n) at 2. apply includes_append.
Qed.

(** Both keys that [generateRecommendation] looks up hold an underscore, and
    the first one ends with the trend. *)
Lemma first_key_suffix (c u t : string) :
  c ++ "_" ++ u ++ "_" ++ t = (c ++ "_" ++ u) ++ "_" ++ t.
Proof. rewrite !append_assoc. reflexivity. Qed.

Lemma second_key_underscore (c u : string) : Str.includes "_" (c ++ "_" ++ u) = true.
Proof. apply includes_append. Qed.

Lemma own_in {A} (o : list (string * A)) (k : string) (v : A) :
  Obj.own o k = Some v -> In (k, v) o.
Proof.
  induction o as [| [k0 v0] o IH]; cbn [Obj.own]; [discriminate |].
  destruct (String.eqb k0 k) eqn:E.
  - apply String.eqb_eq in E. intros [= ->]. left. congruence.
  - intros H. right. exact (IH H).
Qed.

Lemma own_none {A} (o : list (string * A)) (k : string) :
  (forall k0 v0, In (k0, v0) o -> k0 <> k) -> Obj.own o k = None.
Proof.
  induction o as [| [k0 v0] o IH]; intros H; cbn [Obj.own]; [reflexivity |].
  destruct (String.eqb k0 k) eqn:E.
  - apply String.eqb_eq in E. exfalso. exact (H k0 v0 (or_introl eq_refl) E).
  - apply IH. intros k1 v1 Hin. apply (H k1 v1). right. exact Hin.
Qed.

(** A key that is no name of the table and no inherited name finds nothing. *)
Lemma recommended_unlisted (k : string) :
  (forall name, In name (map fst recommendations ++ Obj.Object_prototype) ->
                name <> k) ->
  recommended k = None.
Proof.
  intros D. unfold recommended, Obj.get.
  rewrite own_none.
  - assert (I : Obj.inherited k = false).
    { unfold Obj.inherited. apply not_true_is_false. intros E.
      apply existsb_exists in E. destruct E as (name & Hin & E).
      apply String.eqb_eq in E. subst name.
      apply (D k); [apply in_or_app; right; exact Hin | reflexivity]. }
    rewrite I. reflexivity.
  - intros k0 v0 Hin. apply D. apply in_or_app. left.
    apply (in_map fst) in Hin. exact Hin.
Qed.

(** A key that holds a text which no name of the table and no inherited
    name holds finds nothing. *)
Lemma recommended_nothing (k n : string) :
  Str.includes n k = true ->
  forallb (fun name => negb (Str.includes n name))
    (map fst recommendations ++ Obj.Object_prototype) = true ->
  recommended k = None.
Proof.
  intros Hk Hall. rewrite forallb_forall in Hall.
  apply recommended_unlisted. intros name Hin ->.
  specialize (Hall k Hin). rewrite Hk in Hall. discriminate.
Qed.

Lemma append_cancel_r (x y s : string) : x ++ s = y ++ s -> x = y.
Proof.
  assert (L : forall a b, String.length (a ++ b) = (String.length a + String.length b)%nat).
  { induction a; intros b; cbn; auto. }
  revert y. induction x as [| a x IH]; intros [| b y] H; cbn in H.
  - reflexivity.
  - apply (f_equal String.length) in H. cbn in H. rewrite L in H. lia.
  - apply (f_equal String.length) in H. cbn in H. rewrite L in H. lia.
  - injection H as -> H. f_equal. exact (IH y H).
Qed.

Ltac peel H c :=
  destruct c as [| ? c];
  [ cbn in H; try discriminate H; injection H; intros; subst;
    try (split; reflexivity); try discriminate
  | cbn in H; try discriminate H; injection H as -> H ].

(** [performance_enterprise] splits at its one underscore only. *)
Lemma split_performance_enterprise (c u : string) :
  c ++ "_" ++ u = "performance_enterprise" -> c = "performance" /\ u = "enterprise".
Proof.
  intros H. do 23 (try peel H c).
Qed.

End Recommendations.

Section RecommendationTable.
Local Open Scope string_scope.

(** The first key, which ends with the trend, finds something only for
    [performance_enterprise_accelerating]. *)
Lemma first_key_lookup (x t : string) :
  In t ["stable"; "rising"; "accelerating"] ->
  recommended (x ++ "_" ++ t) =
  if String.eqb x "performance_enterprise" && String.eqb t "accelerating"
  then Some (Text urgent) else None.
Proof.
  intros [<- | [<- | [<- | []]]].
  - rewrite andb_false_r.
    apply (recommended_nothing _ "_stable"); [apply includes_suffix | reflexivity].
  - rewrite andb_false_r.
    apply (recommended_nothing _ "_rising"); [apply includes_suffix | reflexivity].
  - rewrite andb_true_r. destruct (String.eqb x "performance_enterprise") eqn:E.
    + apply String.eqb_eq in E. subst x. reflexivity.
    + apply String.eqb_neq in E.
      assert (K : Str.includes "_accelerating" (x ++ "_accelerating") = true)
        by apply includes_suffix.
      apply recommended_unlisted. intros name Hin Heq.
      change (x ++ "_" ++ "accelerating") with (x ++ "_accelerating") in Heq.
      cbn [map fst recommendations Obj.Object_prototype app In] in Hin.
      destruct Hin as [<- | Hin].
      { apply E. apply (append_cancel_r x "performance_enterprise" "_accelerating").
        symmetry. exact Heq. }
      repeat (destruct Hin as [<- | Hin];
              [rewrite <- Heq in K; discriminate K |]).
      exact Hin.
Qed.

Lemma generateRecommendation_cases (c u t : string) (s : Json.json) :
  In t ["stable"; "rising"; "accelerating"] ->
  generateRecommendation c u t s =
  if String.eqb c "performance" && String.eqb u "enterprise"
     && String.eqb t "accelerating"
  then Text urgent
  else match recommended (c ++ "_" ++ u) with
       | Some r => r
       | None => Text monitor
       end.
Proof.
  intros Ht. unfold generateRecommendation.
  rewrite first_key_suffix, (first_key_lookup _ t Ht).
  destruct (String.eqb (c ++ "_" ++ u) "performance_enterprise") eqn:E.
  - apply String.eqb_eq in E. destruct (split_performance_enterprise c u E) as [-> ->].
    destruct (String.eqb t "accelerating"); reflexivity.
  - cbn [andb].
    assert (N : String.eqb c "performance" && String.eqb u "enterprise" = false).
    { apply not_true_is_false. intros H. apply andb_true_iff in H. destruct H as [Hc Hu].
      apply String.eqb_eq in Hc, Hu. subst c u. discriminate E. }
    rewrite N. reflexivity.
Qed.

(** X12. How the trend enters a recommendation: an enterprise performance
    cohort gets the escalation text when its trend is accelerating and the
    monitoring text otherwise; for every other cohort neither the trend nor
    the sentiment plays a part, and the answer is the entry for
    [category_userType], or the monitoring text. *)
Theorem recommendation_by_trend (c u t : string) (s : Json.json) :
  In t ["stable"; "rising"; "accelerating"] ->
  generateRecommendation c u t s =
    (if String.eqb c "performance" && String.eqb u "enterprise"
        && String.eqb t "accelerating"
     then Text urgent
     else match recommended (c ++ "_" ++ u) with
          | Some r => r
          | None => Text monitor
          end) /\
  (c = "performance" -> u = "enterprise" ->
   generateRecommendation c u t s
   = Text (if String.eqb t "accelerating" then urgent else monitor)) /\
  (forall t' s',
     In t' ["stable"; "rising"; "accelerating"] ->
     (c, u) <> ("performance", "enterprise") ->
     generateRecommendation c u t' s' = generateRecommendation c u t s).
Proof.
  intros Ht. split; [apply generateRecommendation_cases, Ht |]. split.
  - intros -> ->. rewrite (generateRecommendation_cases _ _ _ _ Ht).
    destruct (String.eqb t "accelerating"); reflexivity.
  - intros t' s' Ht' Hne.
    rewrite (generateRecommendation_cases _ _ _ _ Ht),
      (generateRecommendation_cases _ _ _ _ Ht').
    assert (N : String.eqb c "performance" && String.eqb u "enterprise" = false).
    { apply not_true_is_false. intros H. apply andb_true_iff in H. destruct H as [Hc Hu].
      apply String.eqb_eq in Hc, Hu. subst c u. apply Hne. reflexivity. }
    rewrite N. reflexivity.
Qed.

Lemma recommendation_by_trend_witness :
  generateRecommendation "performance" "enterprise" "rising" neutral = Text monitor.
Proof.
  refine (proj1 (proj2 (recommendation_by_trend "performance" "enterprise" "rising"
                          neutral _)) eq_refl eq_refl).
  right. left. reflexivity.
Defined.

(** X13. What a recommendation can be. The entry [documentation] is never
    returned, for every key looked up holds an underscore. The answer is a
    text that is not empty, unless [category_userType] is the name of a
    member of [Object.prototype], and then it is that member. *)
Theorem recommendation_values (c u t : string) (s : Json.json) :
  In t ["stable"; "rising"; "accelerating"] ->
  generateRecommendation c u t s
    <> Text "Update docs within 48h. Consider video tutorial." /\
  (Obj.inherited (c ++ "_" ++ u) = false ->
   exists a, generateRecommendation c u t s = Text a /\ a <> "") /\
  (Obj.inherited (c ++ "_" ++ u) = true ->
   generateRecommendation c u t s = Member (c ++ "_" ++ u)).
Proof.
  intros Ht. rewrite (generateRecommendation_cases c u t s Ht).
  assert (T : forall a, Obj.own recommendations (c ++ "_" ++ u) = Some a ->
                        a <> "" /\ a <> "Update docs within 48h. Consider video tutorial.").
  { intros a Ha. apply own_in in Ha.
    pose proof (second_key_underscore c u) as U.
    cbn [recommendations In] in Ha.
    destruct Ha as [Ha | [Ha | [Ha | [Ha | [Ha | []]]]]]; injection Ha as Hk <-;
      try (split; discriminate).
    cbn [append] in U, Hk. rewrite <- Hk in U. discriminate U. }
  assert (I : Obj.inherited (c ++ "_" ++ u) = true ->
              String.eqb c "performance" && String.eqb u "enterprise" = false).
  { intros H. apply not_true_is_false. intros E. apply andb_true_iff in E.
    destruct E as [Hc Hu]. apply String.eqb_eq in Hc, Hu. subst c u. discriminate H. }
  assert (O : Obj.inherited (c ++ "_" ++ u) = true ->
              Obj.own recommendations (c ++ "_" ++ u) = None).
  { intros H. destruct (Obj.own recommendations (c ++ "_" ++ u)) as [a |] eqn:Ha;
      [| reflexivity].
    apply own_in in Ha. cbn [recommendations In] in Ha.
    destruct Ha as [Ha | [Ha | [Ha | [Ha | [Ha | []]]]]]; injection Ha as Hk _;
      cbn [append] in H, Hk; rewrite <- Hk in H; discriminate H. }
  unfold recommended, Obj.get.
  destruct (String.eqb c "performance" && String.eqb u "enterprise"
            && String.eqb t "accelerating") eqn:E.
  - split; [discriminate |]. split.
    + intros _. exists urgent. split; [reflexivity | discriminate].
    + intros H. apply andb_true_iff in E. destruct E as [E _].
      rewrite (I H) in E. discriminate.
  - destruct (Obj.own recommendations (c ++ "_" ++ u)) as [a |] eqn:Ha.
    + destruct (T a eq_refl) as [Hne Hdoc].
      destruct (String.eqb a "") eqn:Ea; [apply String.eqb_eq in Ea; contradiction |].
      split; [congruence |]. split.
      * intros _. exists a. split; [reflexivity | exact Hne].
      * intros H. discriminate (O H).
    + destruct (Obj.inherited (c ++ "_" ++ u)).
      * split; [discriminate |]. split; [discriminate | reflexivity].
      * split; [discriminate |]. split; [| discriminate].
        intros _. exists monitor. split; [reflexivity | discriminate].
Qed.

Lemma recommendation_values_witness :
  generateRecommendation "" "_proto__" "stable" neutral = Member "__proto__".
Proof.
  refine (proj2 (proj2 (recommendation_values "" "_proto__" "stable" neutral _)) eq_refl).
  left. reflexivity.
Defined.

(** The trend of a record is one of the three. *)
Lemma trend_of_values (v : float) :
  In (trend_of v) ["stable"; "rising"; "accelerating"].
Proof.
  unfold trend_of. destruct (Num.gt v 5); [cbn; auto |].
  destruct (Num.gt v 2); cbn; auto.
Qed.

End RecommendationTable.

(** * Sentiments that do not count *)

(** X4. Only the exact texts [critical] and [negative] raise a score. With any
    other sentiment in the record, [positive], [neutral], a text in another
    case such as [Critical], or a value that is no text at all, the score is
    the one the cohort gets when the classifier fails. *)
Theorem other_sentiments_do_not_boost (row : Cohort.t) (outcome : ai_outcome) :
  let r := risk_of row outcome in
  sentiment r <> Json.JString "critical" ->
  sentiment r <> Json.JString "negative" ->
  severity_score r = severity_score (risk_of row AiRejects).
Proof.
  cbv zeta. rewrite !risk_severity_score, risk_sentiment, after_try_rejected.
  unfold after_try. destruct (assigned_sentiment outcome) as [s |]; cbn [fst snd];
    [| reflexivity].
  intros Hc Hn.
  assert (E : forall t, s <> Json.JString t -> is_string s t = false).
  { intros t Ht. destruct s; try reflexivity. cbn [is_string].
    apply String.eqb_neq. congruence. }
  unfold sentiment_boost. rewrite (E _ Hc), (E _ Hn). reflexivity.
Qed.

Lemma other_sentiments_do_not_boost_witness :
  severity_score (risk_of Sample.perf (AiResponds (Sample.reply "Critical")))
  = severity_score (risk_of Sample.perf AiRejects).
Proof.
  apply (other_sentiments_do_not_boost Sample.perf (AiResponds (Sample.reply "Critical")));
    vm_compute; discriminate.
Defined.
